(** * Verification of the Dianping list-page crawler (parse_web.py)

    A shallow embedding of [extract_shops], [_format_cookies], [load_html],
    [get_next_page_url] and the crawl loop of [main], followed by the
    theorems that settle the specification's claims about them.

    Conventions of the embedding:
    - a Python [str] is a list of Unicode code points ([list N]);
    - a raised exception is the [Raise] branch of [result];
    - the network, the clock and the output file are an explicit [world]
      that every effectful function threads;
    - the parsed page is an ordered tree of elements and text nodes, the
      XPath data model that [lxml] evaluates the queries on. *)

From Stdlib Require Import ZArith NArith QArith List String Ascii Bool Lia.
From stdpp Require Import base option list gmap.

Set Warnings "-register-all".
Local Open Scope N_scope.

(** ** Python strings *)

Module PyStr.

Definition str := list N.

(** An ASCII literal as code points. *)
Definition lit (s : string) : str := map N_of_ascii (list_ascii_of_string s).

Definition is_empty (s : str) : bool :=
  match s with [] => true | _ => false end.

(** [str.isspace] for one code point: the set that [str.strip()] removes. *)
Definition is_space (c : N) : bool :=
  ((9 <=? c) && (c <=? 13)) || ((28 <=? c) && (c <=? 32))
  || (c =? 133) || (c =? 160) || (c =? 5760)
  || ((8192 <=? c) && (c <=? 8202))
  || (c =? 8232) || (c =? 8233) || (c =? 8239) || (c =? 8287)
  || (c =? 12288).

Fixpoint lstrip_by (p : N -> bool) (s : str) : str :=
  match s with
  | [] => []
  | c :: s' => if p c then lstrip_by p s' else s
  end.

Definition rstrip_by (p : N -> bool) (s : str) : str :=
  rev (lstrip_by p (rev s)).

(** [s.strip()] *)
Definition strip (s : str) : str := rstrip_by is_space (lstrip_by is_space s).

(** [p in s] for a one-character [p]. *)
Definition has_char (c : N) (s : str) : bool := existsb (N.eqb c) s.

(** [s.startswith(p)] *)
Fixpoint startswith (p s : str) : bool :=
  match p, s with
  | [], _ => true
  | _ :: _, [] => false
  | a :: p', b :: s' => (a =? b) && startswith p' s'
  end.

(** [needle in hay] *)
Fixpoint contains (needle hay : str) : bool :=
  startswith needle hay
  || match hay with
     | [] => false
     | _ :: hay' => contains needle hay'
     end.

Definition eqb (a b : str) : bool := bool_decide (a = b).

(** [s.split(sep)] for a one-character separator: never the empty list. *)
Fixpoint split (sep : N) (s : str) : list str :=
  match s with
  | [] => [[]]
  | c :: s' =>
      if c =? sep then [] :: split sep s'
      else match split sep s' with
           | [] => [[c]]
           | w :: ws => (c :: w) :: ws
           end
  end.

(** [sep.join(parts)] *)
Fixpoint join (sep : str) (parts : list str) : str :=
  match parts with
  | [] => []
  | [p] => p
  | p :: ps => p ++ sep ++ join sep ps
  end.

(** ASCII lower-casing.  [load_html] only compares the lower-cased URL
    with prefixes made of [h], [t], [p], [s], [:] and [/]; the only code
    points whose lower case starts with one of these are those letters and
    their ASCII capitals, so the test needs no more of [str.lower]. *)
Definition lower_char (c : N) : N :=
  if (65 <=? c) && (c <=? 90) then c + 32 else c.

Definition lower (s : str) : str := map lower_char s.

(** [s.find(c)] for a one-character [c]: [None] is Python's [-1]. *)
Fixpoint find_char (c : N) (s : str) : option nat :=
  match s with
  | [] => None
  | x :: s' => if x =? c then Some 0%nat else S <$> find_char c s'
  end.

(** [s.find(c, start)] *)
Definition find_char_from (c : N) (start : nat) (s : str) : option nat :=
  (fun i => (start + i)%nat) <$> find_char c (drop start s).

(** [s.rfind(c)] *)
Definition rfind_char (c : N) (s : str) : option nat :=
  (fun i => (length s - 1 - i)%nat) <$> find_char c (rev s).

(** [s.partition(c)]: before, whether [c] was found, after. *)
Definition partition (c : N) (s : str) : str * bool * str :=
  match find_char c s with
  | Some i => (take i s, true, drop (S i) s)
  | None => (s, false, [])
  end.

(** [s.rpartition(c)[2]]: what follows the last [c], or all of [s]. *)
Definition after_last (c : N) (s : str) : str :=
  match rfind_char c s with
  | Some i => drop (S i) s
  | None => s
  end.

(** [s.replace(c, '')] for a one-character [c]. *)
Definition remove_char (c : N) (s : str) : str :=
  List.filter (fun x => negb (x =? c)) s.

(** [s.isascii()] *)
Definition isascii (s : str) : bool := forallb (fun c => c <? 128) s.

Definition is_ascii_alpha (c : N) : bool :=
  ((65 <=? c) && (c <=? 90)) || ((97 <=? c) && (c <=? 122)).

(** [x in l] for a list of strings. *)
Definition in_list (x : str) (l : list str) : bool := existsb (eqb x) l.

End PyStr.

Import PyStr.

(** ** Exceptions *)

Inductive pyerr : Type :=
| ValueError (msg : str)
| RuntimeError (msg : str)
| HTTPError (status : Z) (msg : str)
    (* requests.HTTPError(f'{status} ...'): the status and the fixed tail *)
| RequestException (descr : str)
    (* raised inside sess.get: timeout, connection failure, ... *)
| IndexError
| UnboundLocalError
| OverflowError
    (* time.sleep: a duration too large for the clock *)
| OSError (msg : str).

Inductive result (A : Type) : Type :=
| Ok (a : A)
| Raise (e : pyerr).
Arguments Ok {A} a.
Arguments Raise {A} e.

#[global] Instance result_bind : MBind result :=
  fun A B (k : A -> result B) (r : result A) =>
    match r with
    | Ok a => k a
    | Raise e => Raise e
    end.

#[global] Instance result_ret : MRet result := fun A a => Ok a.

#[global] Instance result_fmap : FMap result :=
  fun A B (f : A -> B) (r : result A) =>
    match r with
    | Ok a => Ok (f a)
    | Raise e => Raise e
    end.

(** [l[i]] on a Python list. *)
Definition getitem {A} (l : list A) (i : nat) : result A :=
  match nth_error l i with
  | Some a => Ok a
  | None => Raise IndexError
  end.

(** ** The parsed page *)

Module Dom.

(** A node of the parsed tree: text, or an element with its attributes
    (at most one per name, the first one is looked up) and children. *)
Inductive node : Type :=
| Text (t : str)
| Elem (tag : str) (attrs : list (str * str)) (children : list node).

(** Tag and attributes of an element, as kept on ancestor chains. *)
Record ehead : Type := { tag : str; attrs : list (str * str) }.

Definition get_attr (name : str) (a : list (str * str)) : option str :=
  snd <$> List.find (fun kv => PyStr.eqb (fst kv) name) a.

(** XPath [contains(@name, part)]: a missing attribute has string value
    [""], which contains nothing but [""]. *)
Definition attr_contains (name part : str) (h : ehead) : bool :=
  contains part (default [] (get_attr name (attrs h))).

Definition has_tag (t : str) (h : ehead) : bool := PyStr.eqb (tag h) t.

Definition head_of (n : node) : option ehead :=
  match n with
  | Text _ => None
  | Elem t a _ => Some {| tag := t; attrs := a |}
  end.

Definition children_of (n : node) : list node :=
  match n with
  | Text _ => []
  | Elem _ _ cs => cs
  end.

(** Elements of the subtree of [n] in document order, [n] included
    (axis [descendant-or-self], elements only). *)
Fixpoint elements (n : node) : list node :=
  match n with
  | Text _ => []
  | Elem _ _ cs => n :: flat_map elements cs
  end.

(** Elements strictly below [n] (axis [descendant]). *)
Definition descendants (n : node) : list node :=
  flat_map elements (children_of n).

(** Text nodes of the subtree of [n] in document order, each with the
    chain of its element ancestors up to the context node (nearest
    first, context excluded); [anc] is the chain above [n]. *)
Fixpoint text_nodes (anc : list ehead) (n : node) : list (list ehead * str) :=
  match n with
  | Text t => [(anc, t)]
  | Elem tg a cs => flat_map (text_nodes ({| tag := tg; attrs := a |} :: anc)) cs
  end.

(** Text nodes strictly below the context node [ctx]. *)
Definition descendant_texts (ctx : node) : list (list ehead * str) :=
  flat_map (text_nodes []) (children_of ctx).

(** The text-node children of [n] ([text()] from [n]). *)
Definition child_texts (n : node) : list str :=
  flat_map (fun c => match c with Text t => [t] | Elem _ _ _ => [] end)
           (children_of n).

End Dom.

Import Dom.

(** ** The record extractor: [extract_shops] *)

Module Extract.

Record shop : Type := {
  name : str;
  avg_price : str;
  recommended_dishes : list str
}.

Definition CLASS : str := lit "class".

(** The parent of the text node satisfies [p]. *)
Definition parent_is (p : ehead -> bool) (x : list ehead * str) : bool :=
  match fst x with
  | h :: _ => p h
  | [] => false
  end.

(** Some ancestor strictly above the parent satisfies [p]. *)
Definition above_parent (p : ehead -> bool) (x : list ehead * str) : bool :=
  match fst x with
  | _ :: up => existsb p up
  | [] => false
  end.

Definition is_h4 (h : ehead) : bool := has_tag (lit "h4") h.

Definition is_price_anchor (h : ehead) : bool :=
  has_tag (lit "a") h && attr_contains CLASS (lit "mean-price") h.

Definition is_b (h : ehead) : bool := has_tag (lit "b") h.

Definition is_recommend_div (h : ehead) : bool :=
  has_tag (lit "div") h && attr_contains CLASS (lit "recommend") h.

Definition is_dish_anchor (h : ehead) : bool :=
  has_tag (lit "a") h && attr_contains CLASS (lit "recommend-click") h.

Definition node_is (p : ehead -> bool) (n : node) : bool :=
  match head_of n with
  | Some h => p h
  | None => false
  end.

(** [li.xpath('.//h4/text()')]: the text nodes whose parent is an [h4]
    below [li], in document order. *)
Definition xp_h4_text (li : node) : list str :=
  snd <$> List.filter (parent_is is_h4) (descendant_texts li).

(** [li.xpath('.//a[contains(@class, "mean-price")]//b/text()')]: the text
    nodes whose parent is a [b] that lies strictly below a price anchor
    below [li]. *)
Definition xp_price_text (li : node) : list str :=
  snd <$> List.filter
            (fun x => parent_is is_b x && above_parent is_price_anchor x)
            (descendant_texts li).

(** [li.xpath('.//div[contains(@class, "recommend")]//a[contains(@class,
    "recommend-click")]/text()')] *)
Definition xp_dish_text (li : node) : list str :=
  snd <$> List.filter
            (fun x => parent_is is_dish_anchor x
                      && above_parent is_recommend_div x)
            (descendant_texts li).

(** [document.xpath('//li[.//h4]')]: every [li] of the document that has
    an [h4] strictly below it, in document order. *)
Definition xp_li_with_h4 (document : node) : list node :=
  List.filter
    (fun e => node_is (has_tag (lit "li")) e
              && existsb (node_is is_h4) (descendants e))
    (elements document).

(** One turn of the loop body: [None] is [continue]. *)
Definition shop_of_li (li : node) : result (option shop) :=
  let name_list := xp_h4_text li in
  match name_list with
  | [] => Ok None
  | _ :: _ =>
      name0 ← getitem name_list 0;
      let avg_price_list := xp_price_text li in
      avg_price ← match avg_price_list with
                  | [] => Ok ([] : str)
                  | _ :: _ => strip <$> getitem avg_price_list 0
                  end;
      let dishes :=
        strip <$> List.filter (fun t => negb (is_empty (strip t)))
                              (xp_dish_text li) in
      Ok (Some {| name := strip name0;
                  avg_price := avg_price;
                  recommended_dishes := dishes |})
  end.

Fixpoint shops_loop (lis : list node) (results : list shop)
  : result (list shop) :=
  match lis with
  | [] => Ok results
  | li :: rest =>
      r ← shop_of_li li;
      shops_loop rest (match r with
                       | Some s => results ++ [s]
                       | None => results
                       end)
  end.

Section WithParser.
(** [etree.HTML]: the page text to the root element, [None] when the
    text yields no document; the parser may also raise (lxml refuses a
    [str] that carries an XML encoding declaration with a [ValueError]). *)
Variable HTML : str -> result (option node).

Definition extract_shops (html_text : str) : result (list shop) :=
  document ← HTML html_text;
  match document with
  | None => Ok []
  | Some document => shops_loop (xp_li_with_h4 document) []
  end.
End WithParser.

End Extract.

(** ** The cookie parser: [_format_cookies] *)

Module Cookies.

Definition SEMI : N := 59.
Definition EQUALS : N := 61.

(** The dict comprehension, one pair at a time; a later pair with the
    same key replaces the earlier value. *)
Fixpoint cookies_loop (pairs : list str) (d : gmap str str)
  : result (gmap str str) :=
  match pairs with
  | [] => Ok d
  | kv :: rest =>
      if has_char EQUALS kv then
        k ← getitem (split EQUALS kv) 0;
        v ← getitem (split EQUALS kv) 1;
        cookies_loop rest (<[strip k := strip v]> d)
      else cookies_loop rest d
  end.

Definition _format_cookies (cookies_str : str) : result (gmap str str) :=
  cookies_loop (split SEMI cookies_str) ∅.

End Cookies.

(** ** The world the crawler acts on *)

Module World.

(** One call of [sess.get]: the URL, the [Referer] header (the other
    headers are constants), and the [cookies=] and [timeout=] arguments.
    What the session's own cookie jar adds to the request on the wire, and
    what the responses store in it, belongs to the site's side: the answer
    of [server] may depend on the whole history through the request
    number. *)
Record request : Type := {
  req_url : str;
  req_referer : str;
  req_cookies : option (gmap str str);
  req_timeout : Z
}.

(** What [sess.get] does: it returns a response (after redirects) or
    raises a network-level exception. *)
Inductive response : Type :=
| HttpResp (status_code : Z) (text : str)
| NetFail (descr : str).

Inductive event : Type :=
| EvGet (r : request)
| EvSleep (seconds : Q)
| EvWrite (row : list str).

(** [nreq] counts the requests sent so far, [trace] lists what happened
    in order, [file] is the rows handed to the writer of the output file
    so far: the rows the file holds once the [with] block of [main] has
    closed it, on a normal end as on an exception. *)
Record world : Type := {
  nreq : nat;
  trace : list event;
  file : list (list str)
}.

Definition do_get (r : request) (w : world) : world :=
  {| nreq := S (nreq w); trace := trace w ++ [EvGet r]; file := file w |}.

(** What [time.sleep(seconds)] leaves behind when the sleep takes place. *)
Definition do_sleep (seconds : Q) (w : world) : world :=
  {| nreq := nreq w; trace := trace w ++ [EvSleep seconds]; file := file w |}.

(** [writer.writerow(row)] *)
Definition writerow (row : list str) (w : world) : world :=
  {| nreq := nreq w; trace := trace w ++ [EvWrite row];
     file := file w ++ [row] |}.

(** A Python [float]: a finite value, an infinity or a NaN. *)
Inductive pyfloat : Type :=
| Finite (q : Q)
| PosInf
| NegInf
| NaN.

(** [x > 0] *)
Definition gt0 (x : pyfloat) : bool :=
  match x with
  | Finite q => negb (Qle_bool q 0)
  | PosInf => true
  | NegInf | NaN => false
  end.

Section WithClock.
(** The exception, if any, that the platform makes [time.sleep] raise for
    a finite duration: an [OverflowError] for a duration, of either sign,
    whose nanoseconds do not fit the clock's 64-bit counter, an [OSError]
    when the system call refuses the duration; none for ordinary
    durations. *)
Variable sleep_fails : Q -> option pyerr.

(** [time.sleep(x)] for a [float] argument: the conversion to the clock's
    counter comes first, then the sign test, then the sleep itself. *)
Definition time_sleep (x : pyfloat) (w : world) : result world :=
  match x with
  | NaN => Raise (ValueError (lit "Invalid value NaN (not a number)"))
  | PosInf | NegInf => Raise OverflowError
  | Finite q =>
      match sleep_fails q with
      | Some e => Raise e
      | None =>
          if negb (Qle_bool 0 q)
          then Raise (ValueError (lit "sleep length must be non-negative"))
          else Ok (do_sleep q w)
      end
  end.
End WithClock.

Definition is_get (e : event) : bool :=
  match e with EvGet _ => true | _ => false end.

Definition count_gets (t : list event) : nat := length (List.filter is_get t).

End World.

Import World.

(** ** The page fetcher: [load_html] *)

Module Fetch.

(** ['身份核实'], the marker of the identity-verification page. *)
Definition CHALLENGE : str := [36523; 20221; 26680; 23454].

(** ['身份核实页面，Cookie 可能无效或需要更新'] *)
Definition BLOCKED_MSG : str :=
  [36523; 20221; 26680; 23454; 39029; 38754; 65292; 67; 111; 111; 107;
   105; 101; 32; 21487; 33021; 26080; 25928; 25110; 38656; 35201; 26356;
   26032].

Definition DEFAULT_REFERER : str := lit "https://www.dianping.com/".

(** [1.5 + attempt]; both values are exact in binary floating point. *)
Definition backoff (attempt : Z) : Q := (3 # 2) + inject_Z attempt.

Section WithServer.
(** The remote site: the answer to the [n]-th request of the run. *)
Variable server : nat -> request -> response.

(** [for attempt in range(3): ...] followed by the two [raise]s; [todo]
    holds the attempt indices still to run. *)
Fixpoint attempts (todo : list Z) (last_err : option pyerr)
         (rq : request) (w : world) : result str * world :=
  match todo with
  | [] =>
      match last_err with
      | Some e => (Raise e, w)
      | None => (Raise (RuntimeError (lit "Unknown error fetching page")), w)
      end
  | attempt :: rest =>
      let w1 := do_get rq w in
      match server (nreq w) rq with
      | NetFail descr => (Raise (RequestException descr), w1)
      | HttpResp status_code text =>
          (* the tail of the loop body, once [last_err] is assigned *)
          let retry (e : pyerr) :=
            let w2 := if (attempt <? 2)%Z
                      then do_sleep (backoff attempt) w1
                      else w1 in
            attempts rest (Some e) rq w2 in
          if (status_code =? 200)%Z then
            if negb (contains CHALLENGE text) then (Ok text, w1)
            else retry (RuntimeError BLOCKED_MSG)
          else if ((status_code =? 403) || (status_code =? 429))%Z then
            retry (HTTPError status_code (lit " Forbidden/Too Many Requests"))
          else
            retry (HTTPError status_code (lit " HTTP error"))
      end
  end.

Definition load_html (url : str) (cookies : option str) (timeout : Z)
           (referer : option str) (w : world) : result str * world :=
  if negb (startswith (lit "http://") (lower url)
           || startswith (lit "https://") (lower url))
  then (Raise (ValueError
                 (lit "Only URL is supported. Please provide a valid http(s) URL.")),
        w)
  else
    let referer' := match referer with
                    | Some r => if is_empty r then DEFAULT_REFERER else r
                    | None => DEFAULT_REFERER
                    end in
    let cookie_dict :=
      match cookies with
      | Some c => if is_empty c then Ok None
                  else Some <$> Cookies._format_cookies c
      | None => Ok None
      end in
    match cookie_dict with
    | Raise e => (Raise e, w)
    | Ok cd =>
        attempts [0; 1; 2]%Z None
                 {| req_url := url; req_referer := referer';
                    req_cookies := cd; req_timeout := timeout |} w
    end.
End WithServer.

End Fetch.

(** ** URL resolution: [urllib.parse.urljoin]

    [get_next_page_url] resolves the link with the standard library's
    [urljoin] (CPython 3.11, [Lib/urllib/parse.py]), modelled here with the
    functions it calls, for [str] arguments and the default
    [allow_fragments=True]. *)

Module Url.

Definition COLON : N := 58.
Definition SLASH : N := 47.
Definition QMARK : N := 63.
Definition HASH : N := 35.
Definition SEMI : N := 59.
Definition AT : N := 64.
Definition LBRACKET : N := 91.
Definition RBRACKET : N := 93.

Definition uses_relative : list str :=
  [] :: (lit <$> ["ftp"; "http"; "gopher"; "nntp"; "imap"; "wais"; "file";
                  "https"; "shttp"; "mms"; "prospero"; "rtsp"; "rtspu";
                  "sftp"; "svn"; "svn+ssh"; "ws"; "wss"]%string).

Definition uses_netloc : list str :=
  [] :: (lit <$> ["ftp"; "http"; "gopher"; "nntp"; "telnet"; "imap"; "wais";
                  "file"; "mms"; "https"; "shttp"; "snews"; "prospero";
                  "rtsp"; "rtspu"; "rsync"; "svn"; "svn+ssh"; "sftp"; "nfs";
                  "git"; "git+ssh"; "ws"; "wss"]%string).

Definition uses_params : list str :=
  [] :: (lit <$> ["ftp"; "hdl"; "prospero"; "http"; "imap"; "https";
                  "shttp"; "rtsp"; "rtspu"; "sip"; "sips"; "mms"; "sftp";
                  "tel"]%string).

(** [c in scheme_chars] *)
Definition is_scheme_char (c : N) : bool :=
  is_ascii_alpha c || ((48 <=? c) && (c <=? 57))
  || (c =? 43) || (c =? 45) || (c =? 46).

(** [c in _WHATWG_C0_CONTROL_OR_SPACE] *)
Definition is_c0_or_space (c : N) : bool := c <=? 32.

(** The three [replace(b, '')] of [_UNSAFE_URL_BYTES_TO_REMOVE]. *)
Definition remove_unsafe (s : str) : str :=
  remove_char 10 (remove_char 13 (remove_char 9 s)).

Record split_result : Type := {
  sr_scheme : str; sr_netloc : str; sr_path : str;
  sr_query : str; sr_fragment : str
}.

Record parse_result : Type := {
  scheme : str; netloc : str; path : str;
  params : str; query : str; fragment : str
}.

Definition _splitnetloc (url : str) (start : nat) : str * str :=
  let delim :=
    fold_left (fun delim c =>
                 match find_char_from c start url with
                 | Some wdelim => Nat.min delim wdelim
                 | None => delim
                 end)
              [SLASH; QMARK; HASH] (length url) in
  (drop start (take delim url), drop delim url).

(** [s.split(c, 1)] when [c in s]. *)
Definition split_once (c : N) (s : str) : str * str :=
  let '(before, _, after) := partition c s in (before, after).

Definition _splitparams (url : str) : str * str :=
  let i := if has_char SLASH url
           then find_char_from SEMI (default 0%nat (rfind_char SLASH url)) url
           else find_char SEMI url in
  match i with
  | Some i => (take i url, drop (S i) url)
  | None =>
      if has_char SLASH url then (url, [])
      else (removelast url, url)          (* [url[:-1], url[0:]] *)
  end.

Definition urlunsplit (c : split_result) : str :=
  let url := sr_path c in
  let url :=
    if negb (is_empty (sr_netloc c))
       || (negb (is_empty (sr_scheme c))
           && in_list (sr_scheme c) uses_netloc
           && negb (PyStr.eqb (take 2 url) [SLASH; SLASH]))
    then
      let url := if negb (is_empty url)
                    && negb (PyStr.eqb (take 1 url) [SLASH])
                 then SLASH :: url else url in
      [SLASH; SLASH] ++ sr_netloc c ++ url
    else url in
  let url := if negb (is_empty (sr_scheme c))
             then sr_scheme c ++ [COLON] ++ url else url in
  let url := if negb (is_empty (sr_query c))
             then url ++ [QMARK] ++ sr_query c else url in
  if negb (is_empty (sr_fragment c))
  then url ++ [HASH] ++ sr_fragment c else url.

Definition urlunparse (c : parse_result) : str :=
  let url := if negb (is_empty (params c))
             then path c ++ [SEMI] ++ params c else path c in
  urlunsplit {| sr_scheme := scheme c; sr_netloc := netloc c;
                sr_path := url; sr_query := query c;
                sr_fragment := fragment c |}.

(** The loop of [urljoin] over the path segments; [pop] on an empty
    list is the ignored [IndexError]. *)
Fixpoint resolve_segments (segments resolved_path : list str) : list str :=
  match segments with
  | [] => resolved_path
  | seg :: rest =>
      if PyStr.eqb seg (lit "..") then
        resolve_segments rest (removelast resolved_path)
      else if PyStr.eqb seg (lit ".") then
        resolve_segments rest resolved_path
      else resolve_segments rest (resolved_path ++ [seg])
  end.

(** [segments[1:-1] = filter(None, segments[1:-1])] *)
Definition squeeze_inner (segments : list str) : list str :=
  match segments with
  | [] => []
  | first :: rest =>
      match last rest with
      | None => [first]
      | Some final =>
          first :: List.filter (fun x => negb (is_empty x)) (removelast rest)
                ++ [final]
      end
  end.

(** [l[-1]] *)
Definition getlast {A} (l : list A) : result A :=
  match last l with
  | Some a => Ok a
  | None => Raise IndexError
  end.

Section WithUnicode.
(** [unicodedata.normalize('NFKC', _)] *)
Variable NFKC : str -> str.
(** [_check_bracketed_host]: the [ipaddress] and IPvFuture checks of a
    bracketed host, [Ok tt] when it returns. *)
Variable _check_bracketed_host : str -> result unit.

Definition _checknetloc (netloc : str) : result unit :=
  if is_empty netloc || isascii netloc then Ok tt
  else
    let n := remove_char QMARK
               (remove_char HASH (remove_char COLON (remove_char AT netloc))) in
    let netloc2 := NFKC n in
    if PyStr.eqb n netloc2 then Ok tt
    else if existsb (fun c => has_char c netloc2)
                    [SLASH; QMARK; HASH; AT; COLON]
    then Raise (ValueError (lit "netloc '" ++ netloc ++
           lit "' contains invalid characters under NFKC normalization"))
    else Ok tt.

Definition _check_bracketed_netloc (netloc : str) : result unit :=
  let hostname_and_port := after_last AT netloc in
  let '(before_bracket, have_open_br, bracketed) :=
    partition LBRACKET hostname_and_port in
  if have_open_br then
    if negb (is_empty before_bracket)
    then Raise (ValueError (lit "Invalid IPv6 URL"))
    else
      let '(hostname, _, port) := partition RBRACKET bracketed in
      if negb (is_empty port) && negb (startswith [COLON] port)
      then Raise (ValueError (lit "Invalid IPv6 URL"))
      else _check_bracketed_host hostname
  else
    let '(hostname, _, port) := partition COLON hostname_and_port in
    _check_bracketed_host hostname.

Definition urlsplit (url scheme : str) : result split_result :=
  let url := lstrip_by is_c0_or_space url in
  let scheme := rstrip_by is_c0_or_space (lstrip_by is_c0_or_space scheme) in
  let url := remove_unsafe url in
  let scheme := remove_unsafe scheme in
  let '(scheme, url) :=
    match find_char COLON url, url with
    | Some (S i' as i), c0 :: _ =>
        if is_ascii_alpha c0 && forallb is_scheme_char (take i url)
        then (lower (take i url), drop (S i) url)
        else (scheme, url)
    | _, _ => (scheme, url)
    end in
  '(netloc, url) ←
    (if PyStr.eqb (take 2 url) [SLASH; SLASH] then
       let '(netloc, url) := _splitnetloc url 2 in
       if (has_char LBRACKET netloc && negb (has_char RBRACKET netloc))
          || (has_char RBRACKET netloc && negb (has_char LBRACKET netloc))
       then Raise (ValueError (lit "Invalid IPv6 URL"))
       else
         _ ← (if has_char LBRACKET netloc && has_char RBRACKET netloc
              then _check_bracketed_netloc netloc else Ok tt);
         Ok (netloc, url)
     else Ok ([], url));
  let '(url, fragment) :=
    if has_char HASH url then split_once HASH url else (url, []) in
  let '(url, query) :=
    if has_char QMARK url then split_once QMARK url else (url, []) in
  _ ← _checknetloc netloc;
  Ok {| sr_scheme := scheme; sr_netloc := netloc; sr_path := url;
        sr_query := query; sr_fragment := fragment |}.

Definition urlparse (url scheme : str) : result parse_result :=
  sr ← urlsplit url scheme;
  let '(url, params) :=
    if in_list (sr_scheme sr) uses_params && has_char SEMI (sr_path sr)
    then _splitparams (sr_path sr) else (sr_path sr, []) in
  Ok {| scheme := sr_scheme sr; netloc := sr_netloc sr; path := url;
        params := params; query := sr_query sr;
        fragment := sr_fragment sr |}.

Definition urljoin (base url : str) : result str :=
  if is_empty base then Ok url
  else if is_empty url then Ok base
  else
    b ← urlparse base [];
    u ← urlparse url (scheme b);
    if negb (PyStr.eqb (scheme u) (scheme b))
       || negb (in_list (scheme u) uses_relative)
    then Ok url
    else if in_list (scheme u) uses_netloc && negb (is_empty (netloc u))
    then Ok (urlunparse u)
    else
      let netloc' := if in_list (scheme u) uses_netloc
                     then netloc b else netloc u in
      if is_empty (path u) && is_empty (params u) then
        Ok (urlunparse
              {| scheme := scheme u; netloc := netloc';
                 path := path b; params := params b;
                 query := if is_empty (query u) then query b else query u;
                 fragment := fragment u |})
      else
        let base_parts := split SLASH (path b) in
        final ← getlast base_parts;
        let base_parts := if negb (is_empty final)
                          then removelast base_parts else base_parts in
        let segments :=
          if PyStr.eqb (take 1 (path u)) [SLASH]
          then split SLASH (path u)
          else squeeze_inner (base_parts ++ split SLASH (path u)) in
        let resolved_path := resolve_segments segments [] in
        final_seg ← getlast segments;
        let resolved_path :=
          if in_list final_seg [lit "."; lit ".."]
          then resolved_path ++ [[]] else resolved_path in
        let joined := join [SLASH] resolved_path in
        Ok (urlunparse
              {| scheme := scheme u; netloc := netloc';
                 path := if is_empty joined then [SLASH] else joined;
                 params := params u; query := query u;
                 fragment := fragment u |}).
End WithUnicode.

End Url.

(** ** The pagination resolver: [get_next_page_url] *)

Module Pagination.

(** ['下一页'] *)
Definition NEXT_LABEL : str := [19979; 19968; 39029].

(** XPath white space: space, tab, line feed, carriage return. *)
Definition is_xml_space (c : N) : bool :=
  (c =? 32) || (c =? 9) || (c =? 10) || (c =? 13).

Fixpoint ws_split (s : str) : list str :=
  match s with
  | [] => [[]]
  | c :: s' =>
      if is_xml_space c then [] :: ws_split s'
      else match ws_split s' with
           | [] => [[c]]
           | w :: ws => (c :: w) :: ws
           end
  end.

(** XPath [normalize-space]: the words of [s] joined by single spaces. *)
Definition normalize_space (s : str) : str :=
  join [32] (List.filter (fun w => negb (is_empty w)) (ws_split s)).

(** The predicate [contains(@class, "next") or
    normalize-space(text())="下一页"] on an [a] element; [text()] converts
    to the string value of the first text child, [""] without one. *)
Definition is_next_anchor (e : node) : bool :=
  Extract.node_is (has_tag (lit "a")) e
  && (Extract.node_is (attr_contains Extract.CLASS (lit "next")) e
      || PyStr.eqb (normalize_space (hd [] (child_texts e))) NEXT_LABEL).

Definition href_of (e : node) : list str :=
  match head_of e with
  | Some h => match get_attr (lit "href") (attrs h) with
              | Some v => [v]
              | None => []
              end
  | None => []
  end.

(** [document.xpath('//a[...]/@href')] *)
Definition xp_next_hrefs (document : node) : list str :=
  flat_map (fun e => if is_next_anchor e then href_of e else [])
           (elements document).

Section WithUnicode.
Variable NFKC : str -> str.
Variable _check_bracketed_host : str -> result unit.

Definition get_next_page_url (document : node) (current_url : str)
  : result (option str) :=
  let hrefs := xp_next_hrefs document in
  match hrefs with
  | [] => Ok None
  | _ :: _ =>
      next_href ← getitem hrefs 0;
      Some <$> Url.urljoin NFKC _check_bracketed_host current_url next_href
  end.
End WithUnicode.

End Pagination.

(** ** The crawl driver and the record sink: [main] *)

Module Crawl.

Import Extract Fetch Pagination.

(** The parsed command line ([--output] only names the file). *)
Record args : Type := {
  url : str;
  cookies : str;
  timeout : Z;
  max_pages : Z;
  sleep : pyfloat
}.

(** The loop's local variables; [prev_url] is unbound until the first
    page has been processed. *)
Record session : Type := {
  current_url : str;
  prev_url : option str;
  page_index : Z
}.

Inductive status : Type :=
| Running                 (* the loop goes on to another page *)
| Terminated              (* the loop ended: [break] or a false condition *)
| Failed (e : pyerr).     (* an exception left [main] *)

Definition HEADER : list str :=
  [lit "name"; lit "avg_price"; lit "recommended_dishes"].

(** ['、'] *)
Definition DISH_SEP : str := [12289].

Definition GUARD_MSG : str :=
  lit "Hit identity verification page. Provide valid logged-in cookies with --cookies.".

(** The row written for one record. *)
Definition shop_row (s : shop) : list str :=
  [name s; avg_price s;
   match recommended_dishes s with
   | [] => []
   | _ :: _ => join DISH_SEP (recommended_dishes s)
   end].

(** [for s in shops: writer.writerow([...])] *)
Definition write_shops (shops : list shop) (w : world) : world :=
  fold_left (fun w s => writerow (shop_row s) w) shops w.

Section WithEnv.
Variable server : nat -> request -> response.
Variable HTML : str -> result (option node).
Variable NFKC : str -> str.
Variable _check_bracketed_host : str -> result unit.
Variable sleep_fails : Q -> option pyerr.
Variable a : args.

(** One turn of [while current_url:], from [page_index += 1] on.  The
    session returned with [Failed] is the one the exception left. *)
Definition loop_body (s : session) (w : world) : status * session * world :=
  let s := {| current_url := current_url s; prev_url := prev_url s;
              page_index := page_index s + 1 |} in
  let referer :=
    if (page_index s =? 1)%Z then Ok DEFAULT_REFERER
    else match prev_url s with
         | Some p => Ok p
         | None => Raise UnboundLocalError
         end in
  match referer with
  | Raise e => (Failed e, s, w)
  | Ok referer =>
      match load_html server (current_url s) (Some (cookies a)) (timeout a)
                      (Some referer) w with
      | (Raise e, w) => (Failed e, s, w)
      | (Ok html_text, w) =>
          if contains CHALLENGE html_text
          then (Failed (RuntimeError GUARD_MSG), s, w)
          else
            match extract_shops HTML html_text with
            | Raise e => (Failed e, s, w)
            | Ok shops =>
                let w := write_shops shops w in
                if negb (max_pages a =? 0)%Z
                   && (max_pages a <=? page_index s)%Z
                then (Terminated, s, w)
                else
                  match HTML html_text with
                  | Raise e => (Failed e, s, w)
                  | Ok None => (Terminated, s, w)
                  | Ok (Some doc) =>
                      let s := {| current_url := current_url s;
                                  prev_url := Some (current_url s);
                                  page_index := page_index s |} in
                      match get_next_page_url NFKC _check_bracketed_host
                                              doc (current_url s) with
                      | Raise e => (Failed e, s, w)
                      | Ok None => (Terminated, s, w)
                      | Ok (Some next_url) =>
                          if is_empty next_url
                             || PyStr.eqb next_url (current_url s)
                          then (Terminated, s, w)
                          else
                            let s := {| current_url := next_url;
                                        prev_url := prev_url s;
                                        page_index := page_index s |} in
                            if gt0 (sleep a) then
                              match time_sleep sleep_fails (sleep a) w with
                              | Raise e => (Failed e, s, w)
                              | Ok w => (Running, s, w)
                              end
                            else (Running, s, w)
                      end
                  end
            end
      end
  end.

(** [while current_url: ...]; [fuel] bounds the turns run, and
    [Running] is returned when it is used up with the loop still on. *)
Fixpoint crawl (fuel : nat) (s : session) (w : world)
  : status * session * world :=
  if is_empty (current_url s) then (Terminated, s, w)
  else
    match fuel with
    | O => (Running, s, w)
    | S fuel' =>
        match loop_body s w with
        | (Running, s', w') => crawl fuel' s' w'
        | stopped => stopped
        end
    end.

(** [open(args.output, 'w')] leaves an empty file; the header is
    written, then the loop runs. *)
Definition main (fuel : nat) : status * session * world :=
  let w := {| nreq := 0; trace := []; file := [] |} in
  let w := writerow HEADER w in
  crawl fuel {| current_url := url a; prev_url := None; page_index := 0 |} w.
End WithEnv.

End Crawl.

(** ** Notions used to state the properties *)

Module Props.

Import Extract Cookies Fetch Pagination Crawl.

(** A string is clean on the left when it does not start with a [p]. *)
Definition clean_left (p : N -> bool) (s : str) : Prop :=
  match s with
  | [] => True
  | c :: _ => p c = false
  end.

(** The text of [s] before its first [c] (all of [s] without one). *)
Fixpoint before_first (c : N) (s : str) : str :=
  match s with
  | [] => []
  | x :: s' => if x =? c then [] else x :: before_first c s'
  end.

(** The text of [s] after its first [c] (empty without one). *)
Fixpoint after_first (c : N) (s : str) : str :=
  match s with
  | [] => []
  | x :: s' => if x =? c then s' else after_first c s'
  end.

(** The cookie of one segment, in the words of the description: the
    trimmed text before the first ['='], and the trimmed text between the
    first and the second ['=']. *)
Definition cookie_of_segment (seg : str) : str * str :=
  (strip (before_first EQUALS seg),
   strip (before_first EQUALS (after_first EQUALS seg))).

(** The cookies of a cookie string: the segments without ['='] are
    ignored, the others bind their key in order. *)
Definition cookies_described (cookies_str : str) : gmap str str :=
  fold_left (fun d kv => <[fst kv := snd kv]> d)
            (cookie_of_segment <$>
               List.filter (has_char EQUALS) (split Cookies.SEMI cookies_str))
            ∅.

End Props.

Import Props.

Module TreeProps.

Import Extract.


(** The candidate block [li] has heading text. *)
Definition has_heading_text (li : node) : bool :=
  match xp_h4_text li with
  | [] => false
  | _ :: _ => true
  end.

End TreeProps.

Import TreeProps.

(** ** Sample pages *)

Module Samples.

Definition el (tg : string) (cls : option string) (cs : list node) : node :=
  Elem (lit tg)
       (match cls with
        | Some c => [(lit "class", lit c)]
        | None => []
        end)
       cs.

(** [<li><h4>Shop A</h4><a class="mean-price"><b>¥35</b></a>
     <div class="recommend"><a class="recommend-click">Dish1</a>
     <a class="recommend-click">Dish2</a></div></li>] *)
Definition li_shop_a : node :=
  el "li" None
     [el "h4" None [Text (lit "Shop A")];
      el "a" (Some "mean-price"%string) [el "b" None [Text (165 :: lit "35")]];
      el "div" (Some "recommend"%string)
         [el "a" (Some "recommend-click"%string) [Text (lit "Dish1")];
          el "a" (Some "recommend-click"%string) [Text (lit " Dish2 ")]]].

(** [<li><h4>Shop B</h4></li>] *)
Definition li_shop_b : node :=
  el "li" None [el "h4" None [Text (lit "Shop B")]].

(** [<li><h4>Shop C</h4>...</li>] *)
Definition li_shop_c : node :=
  el "li" None
     [el "h4" None [Text (lit "Shop C")];
      el "a" (Some "mean-price"%string) [el "b" None [Text (165 :: lit "50")]];
      el "div" (Some "recommend"%string)
         [el "a" (Some "recommend-click"%string) [Text (lit "Dish3")]]].

(** The seed page: two blocks and a next link to [/page2]. *)
Definition page1 : node :=
  el "html" None
     [el "body" None
         [el "ul" None [li_shop_a; li_shop_b];
          Elem (lit "a") [(lit "class", lit "next"); (lit "href", lit "/page2")]
               [Text Pagination.NEXT_LABEL]]].

(** The second page: one block, no next link. *)
Definition page2 : node :=
  el "html" None [el "body" None [el "ul" None [li_shop_c]]].

(** [<html><body><ul><li><h4>&nbsp;</h4></li></ul></body></html>]: a
    block whose heading text is one no-break space (U+00A0). *)
Definition blank_heading_page : node :=
  el "html" None
     [el "body" None [el "ul" None [el "li" None [el "h4" None [Text [160]]]]]].

(** A page without any [li] that contains an [h4]. *)
Definition plain_page : node :=
  el "html" None [el "body" None [el "p" None [Text (lit "nothing here")]]].

End Samples.

Module FetchProps.

Import Fetch.

(** The test at the head of [load_html]. *)
Definition valid_url (url : str) : bool :=
  startswith (lit "http://") (lower url)
  || startswith (lit "https://") (lower url).

(** The request [load_html] sends, the same at every attempt. *)
Definition fetch_request (url : str) (cookies : option str) (timeout : Z)
           (referer : option str) : request :=
  {| req_url := url;
     req_referer := match referer with
                    | Some r => if is_empty r then DEFAULT_REFERER else r
                    | None => DEFAULT_REFERER
                    end;
     req_cookies := match cookies with
                    | Some c => if is_empty c then None
                                else Some (cookies_described c)
                    | None => None
                    end;
     req_timeout := timeout |}.

(** An HTTP 200 response whose body carries the challenge marker. *)
Definition is_challenge (r : response) : bool :=
  match r with
  | HttpResp status_code text => (status_code =? 200)%Z && contains CHALLENGE text
  | NetFail _ => false
  end.

(** An HTTP response that is not a usable 200: another status, or the
    challenge page. *)
Definition failed (r : response) : bool :=
  match r with
  | HttpResp status_code text =>
      negb (status_code =? 200)%Z || contains CHALLENGE text
  | NetFail _ => false
  end.

(** The exception an attempt leaves behind: the credential rejection for
    a challenge page, the HTTP status otherwise. *)
Definition last_error (r : response) : pyerr :=
  match r with
  | HttpResp status_code _ =>
      if (status_code =? 200)%Z then RuntimeError BLOCKED_MSG
      else HTTPError status_code
             (if ((status_code =? 403) || (status_code =? 429))%Z
              then lit " Forbidden/Too Many Requests"
              else lit " HTTP error")
  | NetFail descr => RequestException descr
  end.

(** Three requests, 1.5 s and 2.5 s apart. *)
Definition retry_schedule (rq : request) : list event :=
  [EvGet rq; EvSleep (3 # 2); EvGet rq; EvSleep (5 # 2); EvGet rq].

(** The world after [n] more requests that left the events [t]. *)
Definition advance (w : world) (n : nat) (t : list event) : world :=
  {| nreq := (n + nreq w)%nat; trace := trace w ++ t; file := file w |}.

(** What the three attempts come to, by cases on the answers. *)
Definition attempts_outcome (server : nat -> request -> response)
           (rq : request) (w : world) : result str * world :=
  let r0 := server (nreq w) rq in
  let r1 := server (S (nreq w)) rq in
  let r2 := server (S (S (nreq w))) rq in
  match r0 with
  | NetFail d => (Raise (RequestException d), advance w 1 (take 1 (retry_schedule rq)))
  | HttpResp _ b0 =>
      if negb (failed r0) then (Ok b0, advance w 1 (take 1 (retry_schedule rq)))
      else
        match r1 with
        | NetFail d =>
            (Raise (RequestException d), advance w 2 (take 3 (retry_schedule rq)))
        | HttpResp _ b1 =>
            if negb (failed r1)
            then (Ok b1, advance w 2 (take 3 (retry_schedule rq)))
            else
              match r2 with
              | NetFail d =>
                  (Raise (RequestException d), advance w 3 (retry_schedule rq))
              | HttpResp _ b2 =>
                  if negb (failed r2)
                  then (Ok b2, advance w 3 (retry_schedule rq))
                  else (Raise (last_error r2), advance w 3 (retry_schedule rq))
              end
        end
  end.

End FetchProps.

Import FetchProps.

(** ** Sample sites *)

Module Sites.

Import Fetch.

Definition seed_url : str := lit "https://www.dianping.com/shanghai/ch10/r854x81".

Definition start : world := {| nreq := 0; trace := []; file := [] |}.

(** A site that answers the first request with the challenge page and
    every later one with a clean page. *)
Definition challenge_once (n : nat) (_ : request) : response :=
  match n with
  | O => HttpResp 200 (lit "<html>" ++ CHALLENGE ++ lit "</html>")
  | S _ => HttpResp 200 (lit "<html>ok</html>")
  end.

(** A site that always answers with the challenge page. *)
Definition challenge_always (_ : nat) (_ : request) : response :=
  HttpResp 200 (lit "<html>" ++ CHALLENGE ++ lit "</html>").

(** A site that always answers 429. *)
Definition always_429 (_ : nat) (_ : request) : response :=
  HttpResp 429 [].

(** A site that answers 429 twice, then 200. *)
Definition twice_429 (n : nat) (_ : request) : response :=
  match n with
  | O | S O => HttpResp 429 []
  | _ => HttpResp 200 (lit "<html>ok</html>")
  end.

End Sites.

(** ** A sample two-page site *)

Module TwoPages.

Import Crawl.

Definition page2_url : str := lit "https://www.dianping.com/page2".

(** The seed URL serves the text ["P1"], [/page2] the text ["P2"]. *)
Definition server (_ : nat) (rq : request) : response :=
  if PyStr.eqb (req_url rq) Sites.seed_url then HttpResp 200 (lit "P1")
  else if PyStr.eqb (req_url rq) page2_url then HttpResp 200 (lit "P2")
  else HttpResp 404 [].

Definition HTML (text : str) : result (option node) :=
  if PyStr.eqb text (lit "P1") then Ok (Some Samples.page1)
  else if PyStr.eqb text (lit "P2") then Ok (Some Samples.page2)
  else Ok None.

Definition NFKC (s : str) : str := s.

Definition bracketed_ok (_ : str) : result unit := Ok tt.

(** A clock that takes every duration. *)
Definition clock (_ : Q) : option pyerr := None.

Definition run (max_pages : Z) : args :=
  {| url := Sites.seed_url; cookies := lit "k=v"; timeout := 60;
     max_pages := max_pages; sleep := Finite 0 |}.

End TwoPages.

Module CrawlProps.

Import Crawl Fetch.

(** The referer of the turn that starts in session [s]. *)
Definition turn_referer (s : session) : option str :=
  if (page_index s + 1 =? 1)%Z then Some DEFAULT_REFERER else prev_url s.

(** The session once [page_index += 1] has run. *)
Definition bump (s : session) : session :=
  {| current_url := current_url s; prev_url := prev_url s;
     page_index := page_index s + 1 |}.

Definition is_write (e : event) : bool :=
  match e with EvWrite _ => true | _ => false end.

(** The world [main] starts its loop in: the header is in the file. *)
Definition after_header : world :=
  writerow HEADER {| nreq := 0; trace := []; file := [] |}.

(** A Record that some page served by [server] extracts to. *)
Definition extracted_from (server : nat -> request -> response)
           (HTML : str -> result (option node)) (s : Extract.shop) : Prop :=
  exists n rq body shops,
    server n rq = HttpResp 200 body
    /\ Extract.extract_shops HTML body = Ok shops /\ In s shops.

End CrawlProps.

Import CrawlProps.

Module UrlProps.

Import Url.

(** The scheme detection of [urlsplit], on the cleaned URL [url], with
    the cleaned default scheme [d]. *)
Definition split_scheme (url d : str) : str * str :=
  match find_char COLON url, url with
  | Some (S i' as i), c0 :: _ =>
      if is_ascii_alpha c0 && forallb is_scheme_char (take i url)
      then (lower (take i url), drop (S i) url)
      else (d, url)
  | _, _ => (d, url)
  end.

(** An href that is already absolute: it parses, with a scheme of its
    own and a network location. *)
Definition is_absolute (NFKC : str -> str) (chk : str -> result unit)
           (href : str) (u : parse_result) : Prop :=
  urlparse NFKC chk href [] = Ok u /\ scheme u <> [] /\ netloc u <> [].

(** A page whose next link is [href]. *)
Definition link_page (href : str) : node :=
  Samples.el "html" None
    [Samples.el "body" None
       [Elem (lit "a") [(lit "class", lit "next"); (lit "href", href)]
             [Text Pagination.NEXT_LABEL]]].

End UrlProps.

Import UrlProps.

(** ** Notions used to state the further properties *)

Module MoreProps.

Import Extract Cookies Fetch Pagination Crawl.

(** The Record of a candidate block, [None] for a block without heading
    text. *)
Definition record_of (li : node) : option shop :=
  match xp_h4_text li with
  | [] => None
  | t :: _ =>
      Some {| name := strip t;
              avg_price := match xp_price_text li with
                           | [] => []
                           | p :: _ => strip p
                           end;
              recommended_dishes :=
                List.filter (fun d => negb (is_empty d))
                            (strip <$> xp_dish_text li) |}
  end.

(** A string that [strip] leaves alone. *)
Definition trimmed (s : str) : Prop := strip s = s.

(** A Record whose texts are all trimmed and whose dishes are non-empty. *)
Definition well_formed (s : shop) : Prop :=
  trimmed (name s) /\ trimmed (avg_price s)
  /\ Forall (fun d => d <> [] /\ trimmed d) (recommended_dishes s).

(** The requests of a trace, in order. *)
Definition gets (t : list event) : list request :=
  flat_map (fun e => match e with EvGet r => [r] | _ => [] end) t.

(** Two requests in a row: the second repeats the first, or it asks for
    another page and names the first one's URL as its referer. *)
Definition chain_step (r1 r2 : request) : Prop :=
  (req_url r2 = req_url r1 /\ req_referer r2 = req_referer r1)
  \/ (req_url r2 <> req_url r1 /\ req_referer r2 = req_url r1).

Fixpoint chain_ok (l : list request) : Prop :=
  match l with
  | r1 :: (r2 :: _) as tl => chain_step r1 r2 /\ chain_ok tl
  | _ => True
  end.

(** The exceptions that the crawler's own statements and the URL
    functions raise. *)
Definition expected_failure (e : pyerr) : Prop :=
  match e with
  | ValueError _ => True
  | RuntimeError msg => msg = BLOCKED_MSG
  | HTTPError status _ => status <> 200%Z
  | RequestException _ => True
  | OverflowError => True
  | IndexError => False
  | UnboundLocalError => False
  | OSError _ => False
  end.

(** An exception that one of the library calls left open raises: the
    parser on some text, the bracketed-host check on some host, or
    [time.sleep] on some duration. *)
Definition library_failure (HTML : str -> result (option node))
           (chk : str -> result unit) (sleep_fails : Q -> option pyerr)
           (e : pyerr) : Prop :=
  (exists text, HTML text = Raise e)
  \/ (exists host, chk host = Raise e)
  \/ (exists q, sleep_fails q = Some e).

(** What the URL functions raise: a [ValueError] of their own, or what
    the bracketed-host check raises on some host. *)
Definition resolution_failure (chk : str -> result unit) (e : pyerr) : Prop :=
  (exists msg, e = ValueError msg) \/ (exists host, chk host = Raise e).

(** An element node, as opposed to a text node. *)
Definition is_element (n : node) : bool :=
  match n with
  | Elem _ _ _ => true
  | Text _ => false
  end.

(** A path segment that [urljoin] keeps as it is. *)
Definition plain_segment (seg : str) : bool :=
  negb (PyStr.eqb seg (lit ".")) && negb (PyStr.eqb seg (lit "..")).

(** A character that takes no part in splitting a URL. *)
Definition path_char (c : N) : bool :=
  negb (c <=? 32) && negb (c =? Url.COLON) && negb (c =? Url.QMARK)
  && negb (c =? Url.HASH) && negb (c =? Url.SEMI).

End MoreProps.

Import MoreProps.

Module ChainProps.

Import Crawl.

(** The request that every attempt of the turn starting in session [s]
    sends. *)
Definition turn_request (a : args) (s : session) : request :=
  fetch_request (current_url s) (Some (cookies a)) (timeout a) (turn_referer s).

(** What the loop keeps true of its session at the head of a turn: the
    counter is not negative, and once a page has been processed [prev_url]
    is bound to a non-empty URL. *)
Definition session_ok (s : session) : Prop :=
  (0 <= page_index s)%Z
  /\ (page_index s = 0%Z \/ exists p, prev_url s = Some p /\ p <> []).

End ChainProps.

Import ChainProps.

Module EmptyLink.

Import Crawl.

(** A site whose only page carries a next link with an empty [href]. *)
Definition server (_ : nat) (_ : request) : response := HttpResp 200 (lit "L").

Definition HTML (_ : str) : result (option node) := Ok (Some (link_page [])).

Definition seed : session :=
  {| current_url := Sites.seed_url; prev_url := None; page_index := 0 |}.

End EmptyLink.

(** ** The queries, as the description words them *)

Module Described.

Import Extract.

(** Walking the subtree of [n] in document order: the text children of
    every element satisfying [parent] that lies inside an element
    satisfying [container]; [inside] tells whether such a container has
    already been entered on the way down to [n]. *)
Fixpoint texts_inside (container parent : ehead -> bool) (inside : bool)
         (n : node) : list str :=
  match n with
  | Text _ => []
  | Elem tg a cs =>
      flat_map
        (fun c =>
           match c with
           | Text t =>
               if parent {| tag := tg; attrs := a |} && inside then [t] else []
           | Elem _ _ _ =>
               texts_inside container parent
                            (inside || container {| tag := tg; attrs := a |}) c
           end)
        cs
  end.

(** The same walk below a block [li], the block itself being neither a
    container nor a parent. *)
Definition texts_below (container parent : ehead -> bool) (inside : bool)
           (li : node) : list str :=
  flat_map (fun c => match c with
                     | Text _ => []
                     | Elem _ _ _ => texts_inside container parent inside c
                     end)
           (children_of li).



(** The texts of the headings below the block, in document order. *)
Definition heading_texts (li : node) : list str :=
  texts_below (fun _ => true) is_h4 true li.

(** Some element strictly below [n] satisfies [p]. *)
Fixpoint has_inside (p : ehead -> bool) (n : node) : bool :=
  match n with
  | Text _ => false
  | Elem _ _ cs => existsb (fun c => node_is p c || has_inside p c) cs
  end.

(** The candidate blocks of the subtree of [n]: [n] itself when it is an
    [li] with a heading inside, then the candidate blocks of its children,
    child after child. *)
Fixpoint candidate_blocks (n : node) : list node :=
  match n with
  | Text _ => []
  | Elem _ _ cs =>
      (if node_is (has_tag (lit "li")) n && has_inside is_h4 n then [n] else [])
      ++ flat_map candidate_blocks cs
  end.

End Described.

Import Described.

(** ** A parser that refuses declared texts *)

Module Declared.

(** A page text that opens with an XML declaration naming an encoding. *)
Definition declared_text : str :=
  lit "<?xml version='1.0' encoding='utf-8'?><html><body></body></html>".

Definition DECLARATION_MSG : str :=
  lit "Unicode strings with encoding declaration are not supported. Please use bytes input or XML fragments without declaration.".

(** [etree.HTML] on [declared_text], a [str]: the parser raises
    [ValueError] before it builds any document.  Other texts stand for
    pages without element. *)
Definition HTML (text : str) : result (option node) :=
  if PyStr.eqb text declared_text then Raise (ValueError DECLARATION_MSG)
  else Ok None.

End Declared.

(** ** A sample site whose next link does not resolve *)

Module BrokenLink.

Import Crawl.

(** An href whose bracketed host is not closed. *)
Definition bad_href : str := lit "https://[::1/p".

(** A page with one block and a next link to [bad_href]. *)
Definition page : node :=
  Samples.el "html" None
    [Samples.el "body" None
       [Samples.el "ul" None [Samples.li_shop_b];
        Elem (lit "a") [(lit "class", lit "next"); (lit "href", bad_href)]
             [Text Pagination.NEXT_LABEL]]].

Definition server (_ : nat) (_ : request) : response := HttpResp 200 (lit "B").

Definition HTML (_ : str) : result (option node) := Ok (Some page).

End BrokenLink.

(** * Properties *)

Import Extract Cookies Fetch Pagination Crawl.

(** ** Strings *)

Lemma is_empty_true (s : str) : is_empty s = true <-> s = [].
Proof. destruct s; simpl; split; congruence. Qed.

Lemma is_empty_false (s : str) : is_empty s = false <-> s <> [].
Proof. destruct s; simpl; split; congruence. Qed.

Lemma eqb_true (a b : str) : PyStr.eqb a b = true <-> a = b.
Proof. unfold PyStr.eqb. apply bool_decide_eq_true. Qed.

Lemma eqb_false (a b : str) : PyStr.eqb a b = false <-> a <> b.
Proof. unfold PyStr.eqb. apply bool_decide_eq_false. Qed.

Lemma eqb_refl (a : str) : PyStr.eqb a a = true.
Proof. by apply eqb_true. Qed.

(** [lstrip_by] removes a prefix made of characters satisfying [p]. *)
Lemma lstrip_by_split p s :
  exists pre, s = pre ++ lstrip_by p s /\ forallb p pre = true.
Proof.
  induction s as [|c s IH]; simpl.
  - by exists [].
  - destruct (p c) eqn:Hc.
    + destruct IH as (pre & Hs & Hp). exists (c :: pre). simpl.
      rewrite Hc, Hp. split; [by f_equal | done].
    + by exists [].
Qed.

Lemma lstrip_by_clean p s : clean_left p (lstrip_by p s).
Proof.
  induction s as [|c s IH]; simpl; [done|].
  destruct (p c) eqn:Hc; [done | simpl; done].
Qed.

Lemma lstrip_by_id p s : clean_left p s -> lstrip_by p s = s.
Proof. destruct s as [|c s]; simpl; [done|]. by intros ->. Qed.

Lemma rstrip_by_split p s :
  exists post, s = rstrip_by p s ++ post /\ forallb p post = true.
Proof.
  unfold rstrip_by.
  destruct (lstrip_by_split p (rev s)) as (pre & Hs & Hp).
  exists (rev pre). split.
  - rewrite <- rev_app_distr, <- Hs. by rewrite rev_involutive.
  - rewrite forallb_forall in *. intros x Hx. apply Hp. by apply in_rev.
Qed.

Lemma rstrip_by_clean p s : clean_left p (rev (rstrip_by p s)).
Proof. unfold rstrip_by. rewrite rev_involutive. apply lstrip_by_clean. Qed.

Lemma rstrip_by_id p s : clean_left p (rev s) -> rstrip_by p s = s.
Proof.
  intros H. unfold rstrip_by. rewrite lstrip_by_id by done.
  apply rev_involutive.
Qed.

Lemma rstrip_by_keeps_left p s : clean_left p s -> clean_left p (rstrip_by p s).
Proof.
  intros H. destruct (rstrip_by_split p s) as (post & Hs & _).
  destruct (rstrip_by p s) as [|c r] eqn:E; [done|].
  rewrite Hs in H. exact H.
Qed.

(** [strip] is idempotent: its results are trimmed. *)
Lemma strip_idemp (s : str) : strip (strip s) = strip s.
Proof.
  unfold strip at 1.
  assert (Hl : clean_left is_space (strip s)).
  { apply rstrip_by_keeps_left, lstrip_by_clean. }
  rewrite (lstrip_by_id _ _ Hl).
  apply rstrip_by_id. unfold strip. apply rstrip_by_clean.
Qed.

Lemma has_char_true c s : has_char c s = true <-> In c s.
Proof.
  unfold has_char. rewrite existsb_exists. split.
  - intros (x & Hx & Heq). apply N.eqb_eq in Heq. by subst.
  - intros H. exists c. split; [done | apply N.eqb_refl].
Qed.

(** ** The cookie parser *)

Lemma split_shape c s :
  split c s = before_first c s
              :: (if has_char c s then split c (after_first c s) else []).
Proof.
  induction s as [|x s IH]; simpl; [done|].
  rewrite (N.eqb_sym c x).
  destruct (x =? c) eqn:Hx; simpl; [done|].
  rewrite IH. done.
Qed.

Lemma cookies_loop_described pairs d :
  cookies_loop pairs d =
  Ok (fold_left (fun d kv => <[fst kv := snd kv]> d)
                (cookie_of_segment <$> List.filter (has_char EQUALS) pairs) d).
Proof.
  revert d. induction pairs as [|kv rest IH]; intros d; simpl; [done|].
  destruct (has_char EQUALS kv) eqn:Hkv; [|apply IH].
  rewrite (split_shape EQUALS kv), Hkv.
  rewrite (split_shape EQUALS (after_first EQUALS kv)).
  simpl. rewrite IH. done.
Qed.

(** C9. For every cookie string, [_format_cookies] returns (without raising)
    the dict described: the segments between semicolons that contain no
    ['='] are ignored; every other segment binds the trimmed text before its
    first ['='] to the trimmed text between its first and second ['='], what
    follows a second ['='] being dropped; segments bind in order. *)
Theorem format_cookies_described (cookies_str : str) :
  _format_cookies cookies_str = Ok (cookies_described cookies_str).
Proof. unfold _format_cookies, cookies_described. apply cookies_loop_described. Qed.

Lemma before_first_app c k rest :
  ~ In c k -> before_first c (k ++ c :: rest) = k.
Proof.
  induction k as [|x k IH]; simpl; intros Hk.
  - by rewrite N.eqb_refl.
  - destruct (x =? c) eqn:Hx.
    + apply N.eqb_eq in Hx. tauto.
    + f_equal. apply IH. tauto.
Qed.

Lemma after_first_app c k rest :
  ~ In c k -> after_first c (k ++ c :: rest) = rest.
Proof.
  induction k as [|x k IH]; simpl; intros Hk.
  - by rewrite N.eqb_refl.
  - destruct (x =? c) eqn:Hx.
    + apply N.eqb_eq in Hx. tauto.
    + apply IH. tauto.
Qed.

(** A segment [k=v=rest] binds [k] to [v]: [rest] is dropped. *)
Lemma cookie_of_segment_drops_rest k v rest :
  ~ In EQUALS k -> ~ In EQUALS v ->
  cookie_of_segment (k ++ EQUALS :: v ++ EQUALS :: rest) = (strip k, strip v).
Proof.
  intros Hk Hv. unfold cookie_of_segment.
  rewrite before_first_app, after_first_app, before_first_app by done. done.
Qed.

(** ["a=1=x; junk ;b = 2"] parses to [{a: 1, b: 2}]. *)
Example format_cookies_example :
  _format_cookies (lit "a=1=x; junk ;b = 2")
  = Ok (<[lit "b" := lit "2"]> (<[lit "a" := lit "1"]> ∅)).
Proof. vm_compute. reflexivity. Qed.

(** ** The parsed page *)

Lemma node_induction (P : node -> Prop) :
  (forall t, P (Text t)) ->
  (forall tg a cs, Forall P cs -> P (Elem tg a cs)) ->
  forall n, P n.
Proof.
  intros HT HE. fix IH 1. intros [t|tg a cs]; [apply HT|].
  apply HE. induction cs as [|c cs IHcs]; constructor; [apply IH | exact IHcs].
Qed.



(** ** The record extractor *)







Lemma filter_sublist {A} (f : A -> bool) (l : list A) :
  sublist (List.filter f l) l.
Proof.
  induction l as [|x l IH]; simpl; [constructor|].
  destruct (f x); by constructor.
Qed.

Lemma filter_fmap_strip (l : list str) :
  strip <$> List.filter (fun t => negb (is_empty (strip t))) l
  = List.filter (fun d => negb (is_empty d)) (strip <$> l).
Proof.
  induction l as [|t l IH]; [done|].
  rewrite fmap_cons. cbn [List.filter].
  destruct (negb (is_empty (strip t))); [rewrite fmap_cons; by f_equal | done].
Qed.

(** The loop body on a block with heading text. *)
Lemma shop_of_li_heading li t ts :
  xp_h4_text li = t :: ts ->
  shop_of_li li =
  Ok (Some {| name := strip t;
              avg_price := match xp_price_text li with
                           | [] => []
                           | p :: _ => strip p
                           end;
              recommended_dishes :=
                List.filter (fun d => negb (is_empty d)) (strip <$> xp_dish_text li) |}).
Proof.
  intros Hn. unfold shop_of_li. rewrite Hn, filter_fmap_strip.
  destruct (xp_price_text li); reflexivity.
Qed.

(** The loop body never raises, and skips exactly the blocks without
    heading text. *)
Lemma shop_of_li_total li :
  exists r, shop_of_li li = Ok r /\ (is_Some r <-> has_heading_text li = true).
Proof.
  unfold has_heading_text.
  destruct (xp_h4_text li) as [|t ts] eqn:Hn.
  - exists None. unfold shop_of_li. rewrite Hn. split; [done|].
    split; [by intros [? ?] | done].
  - eexists. split; [by apply (shop_of_li_heading li t ts)|].
    split; [done | by eexists].
Qed.

Lemma shops_loop_total lis : forall results,
  exists shops, shops_loop lis results = Ok shops
    /\ length shops
       = (length results + length (List.filter has_heading_text lis))%nat.
Proof.
  induction lis as [|li rest IH]; intros results; simpl.
  - exists results. split; [done | lia].
  - destruct (shop_of_li_total li) as (r & -> & Hr). simpl.
    destruct (IH (match r with Some s => results ++ [s] | None => results end))
      as (shops & -> & Hlen).
    exists shops. split; [done|]. rewrite Hlen.
    destruct r as [s|]; destruct (has_heading_text li) eqn:Hh; simpl.
    + rewrite length_app. simpl. lia.
    + destruct Hr as [Hr _]. specialize (Hr ltac:(by eexists)). done.
    + destruct Hr as [_ Hr]. destruct (Hr eq_refl) as [? ?]. done.
    + lia.
Qed.

(** [extract_shops] returns whenever the parser does, and raises what the
    parser raises. *)
Lemma extract_shops_parsed (HTML : str -> result (option node)) (html_text : str)
      (o : option node) :
  HTML html_text = Ok o -> exists shops, extract_shops HTML html_text = Ok shops.
Proof.
  unfold extract_shops. intros ->. cbn [mbind result_bind].
  destruct o as [document|]; [|by exists []].
  destruct (shops_loop_total (xp_li_with_h4 document) []) as (shops & Hs & _).
  by exists shops.
Qed.

Lemma extract_shops_raise (HTML : str -> result (option node))
      (html_text : str) (e : pyerr) :
  extract_shops HTML html_text = Raise e -> HTML html_text = Raise e.
Proof.
  unfold extract_shops. destruct (HTML html_text) as [[document|]|e0];
    cbn [mbind result_bind]; [|done|by intros [= ->]].
  destruct (shops_loop_total (xp_li_with_h4 document) []) as (shops & -> & _).
  done.
Qed.

(** The selection of text nodes by their ancestor chain is the walk of the
    description. *)
Lemma text_nodes_inside (container parent : ehead -> bool) (inside0 : bool) n :
  forall anc tg a cs, n = Elem tg a cs ->
    snd <$> List.filter
              (fun x => parent_is parent x
                        && (inside0 || above_parent container x))
              (text_nodes anc n)
    = texts_inside container parent (inside0 || existsb container anc) n.
Proof.
  induction n as [t0|tg0 a0 cs0 IH] using node_induction;
    intros anc tg a cs Hn; [done|]. clear Hn tg a cs.
  cbn [text_nodes texts_inside].
  induction cs0 as [|c cs0 IHcs]; [done|].
  apply Forall_cons in IH as [IHc IH]. specialize (IHcs IH).
  cbn [flat_map]. rewrite List.filter_app, fmap_app, IHcs. f_equal.
  destruct c as [t|tg a cs].
  - cbn [text_nodes List.filter parent_is above_parent fst].
    destruct (parent {| tag := tg0; attrs := a0 |}
              && (inside0 || existsb container anc)); reflexivity.
  - rewrite (IHc ({| tag := tg0; attrs := a0 |} :: anc) tg a cs eq_refl).
    cbn [existsb]. f_equal.
    destruct inside0, (container {| tag := tg0; attrs := a0 |}),
      (existsb container anc); reflexivity.
Qed.

Lemma descendant_texts_below (container parent : ehead -> bool) (inside0 : bool) li :
  snd <$> List.filter
            (fun x => parent_is parent x
                      && (inside0 || above_parent container x))
            (descendant_texts li)
  = texts_below container parent inside0 li.
Proof.
  unfold descendant_texts, texts_below.
  induction (children_of li) as [|c cs IH]; [done|].
  cbn [flat_map]. rewrite List.filter_app, fmap_app, IH. f_equal.
  destruct c as [t|tg a cs0]; [reflexivity|].
  rewrite (text_nodes_inside container parent inside0 _ [] tg a cs0 eq_refl).
  cbn [existsb]. by rewrite orb_false_r.
Qed.

Lemma filter_pointwise {A} (f g : A -> bool) (l : list A) :
  (forall x, f x = g x) -> List.filter f l = List.filter g l.
Proof. intros H. induction l as [|x l IH]; [done|]. cbn. by rewrite H, IH. Qed.



(** The heading query of [extract_shops] selects the texts of the
    description. *)
Lemma xp_h4_text_described li : xp_h4_text li = heading_texts li.
Proof.
  unfold xp_h4_text, heading_texts.
  rewrite <- (descendant_texts_below (fun _ => true) is_h4 true li).
  f_equal. apply filter_pointwise. intros x. cbn [orb]. by rewrite andb_true_r.
Qed.



(** The first sample block yields its name, price and both dishes. *)
Example shop_of_li_shop_a :
  shop_of_li Samples.li_shop_a
  = Ok (Some {| name := lit "Shop A"; avg_price := 165 :: lit "35";
                recommended_dishes := [lit "Dish1"; lit "Dish2"] |}).
Proof. vm_compute. reflexivity. Qed.

(** C7, as worded, fails: on a page text that opens with an XML
    declaration naming an encoding the parser raises [ValueError], and
    [extract_shops] raises it too, although the text has no qualifying
    block. *)
Theorem extract_shops_raises_on_declared_text :
  extract_shops Declared.HTML Declared.declared_text
  = Raise (ValueError Declared.DECLARATION_MSG)
  /\ ~ (forall (HTML : str -> result (option node)) (html_text : str),
          (forall document, HTML html_text = Ok (Some document) ->
             xp_li_with_h4 document = []) ->
          extract_shops HTML html_text = Ok []).
Proof.
  assert (H : extract_shops Declared.HTML Declared.declared_text
              = Raise (ValueError Declared.DECLARATION_MSG))
    by (vm_compute; reflexivity).
  split; [exact H|]. intros Hall.
  specialize (Hall Declared.HTML Declared.declared_text).
  rewrite H in Hall. discriminate Hall.
  intros document Hd. vm_compute in Hd. discriminate Hd.
Qed.

(** C7, amended.  For every parser and every page text, [extract_shops]
    raises exactly when the parser raises on the text, and then the
    parser's exception; when the parser returns, [extract_shops] returns a
    list with one Record per candidate block with heading text, the other
    candidates being omitted, and the list is empty when the text yields no
    document and when the document has no candidate block. *)
Theorem extract_shops_raises_only_from_parser
        (HTML : str -> result (option node)) (html_text : str) :
  (forall e, HTML html_text = Raise e <-> extract_shops HTML html_text = Raise e)
  /\ (forall o, HTML html_text = Ok o ->
        exists shops, extract_shops HTML html_text = Ok shops
          /\ length shops
             = match o with
               | None => 0%nat
               | Some document =>
                   length (List.filter has_heading_text (xp_li_with_h4 document))
               end
          /\ (o = None -> shops = [])
          /\ (forall document, o = Some document ->
                xp_li_with_h4 document = [] -> shops = [])).
Proof.
  unfold extract_shops. destruct (HTML html_text) as [o|e0];
    cbn [mbind result_bind].
  - split.
    + intros e. split; [done|]. destruct o as [document|]; [|done].
      destruct (shops_loop_total (xp_li_with_h4 document) []) as (shops & Hs & _).
      by rewrite Hs.
    + intros o' [= <-]. destruct o as [document|].
      * destruct (shops_loop_total (xp_li_with_h4 document) [])
          as (shops & Hs & Hlen).
        exists shops. split; [done|]. split; [by rewrite Hlen|]. split; [done|].
        intros d [= <-] Hnone. rewrite Hnone in Hlen. simpl in Hlen.
        by destruct shops.
      * exists []. repeat split; done.
  - split; [|done]. intros e. split; intros [= ->]; reflexivity.
Qed.

Lemma extract_shops_raises_only_from_parser_witness :
  extract_shops (fun _ => Ok (Some Samples.plain_page)) [] = Ok [].
Proof.
  destruct (extract_shops_raises_only_from_parser
              (fun _ => Ok (Some Samples.plain_page)) [])
    as (_ & Hret).
  destruct (Hret (Some Samples.plain_page) eq_refl)
    as (shops & Hs & _ & _ & Hnone).
  rewrite Hs. f_equal. apply (Hnone Samples.plain_page); reflexivity.
Defined.

(** C2, at the failing page.  On a page whose only block has the heading
    text U+00A0, [extract_shops] yields a Record whose name is empty: the
    block passes the [if not name_list] test and its name is trimmed
    afterwards, without a second test. *)
Theorem extract_shops_blank_heading :
  extract_shops (fun _ => Ok (Some Samples.blank_heading_page)) []
  = Ok [{| name := []; avg_price := []; recommended_dishes := [] |}].
Proof. vm_compute. reflexivity. Qed.

(** ** The page fetcher *)

Lemma backoff_0 : backoff 0 = (3 # 2)%Q.
Proof. reflexivity. Qed.

Lemma backoff_1 : backoff 1 = (5 # 2)%Q.
Proof. reflexivity. Qed.

Lemma attempts_unfold server rq w :
  attempts server [0; 1; 2]%Z None rq w = attempts_outcome server rq w.
Proof.
  unfold attempts_outcome, advance, retry_schedule, failed, last_error.
  cbn [attempts].
  change (0 <? 2)%Z with true. change (1 <? 2)%Z with true.
  change (2 <? 2)%Z with false.
  rewrite backoff_0, backoff_1.
  unfold do_get, do_sleep. cbn [nreq trace file take Nat.add].
  repeat match goal with
  | |- context [match server ?n ?r with _ => _ end] =>
      destruct (server n r) as [? ?|?]
  | |- context [(?s =? 200)%Z] => destruct (s =? 200)%Z eqn:?
  | |- context [contains CHALLENGE ?b] => destruct (contains CHALLENGE b) eqn:?
  | |- context [((?s =? 403) || (?s =? 429))%Z] =>
      destruct ((s =? 403) || (s =? 429))%Z eqn:?
  | _ => progress cbn [negb orb andb]
  end; rewrite <- ?app_assoc; reflexivity.
Qed.

Lemma load_html_unfold server url cookies timeout referer w :
  load_html server url cookies timeout referer w =
  if valid_url url
  then attempts_outcome server (fetch_request url cookies timeout referer) w
  else (Raise (ValueError
                 (lit "Only URL is supported. Please provide a valid http(s) URL.")),
        w).
Proof.
  unfold load_html, valid_url, fetch_request.
  destruct (startswith (lit "http://") (lower url)
            || startswith (lit "https://") (lower url)); [|reflexivity].
  cbn [negb]. destruct cookies as [c|]; [|apply attempts_unfold].
  destruct (is_empty c); [apply attempts_unfold|].
  unfold _format_cookies. rewrite cookies_loop_described.
  apply attempts_unfold.
Qed.

(** A returned page never carries the challenge marker, and is the body
    of an HTTP 200 answer of the site. *)
Lemma load_html_ok server url cookies timeout referer w text w' :
  load_html server url cookies timeout referer w = (Ok text, w') ->
  contains CHALLENGE text = false
  /\ exists n rq, server n rq = HttpResp 200 text.
Proof.
  rewrite load_html_unfold. destruct (valid_url url); [|done].
  unfold attempts_outcome, failed. intros H.
  repeat match type of H with
  | context [match server ?n ?r with _ => _ end] =>
      let E := fresh "E" in destruct (server n r) as [? ?|?] eqn:E
  | context [(?s =? 200)%Z] =>
      let E := fresh "Hs" in destruct (s =? 200)%Z eqn:E
  | context [contains CHALLENGE ?b] =>
      let E := fresh "Hc" in destruct (contains CHALLENGE b) eqn:E
  | _ => progress cbn [negb orb andb] in H
  end; try discriminate H; injection H as <- <-;
  (split; [assumption|]);
  repeat match goal with
  | H : (_ =? 200)%Z = true |- _ => apply Z.eqb_eq in H; subst
  end; eauto.
Qed.

(** The fetcher only appends to the trace and leaves the file alone. *)
Lemma load_html_frame server url cookies timeout referer w :
  exists n t,
    snd (load_html server url cookies timeout referer w) = advance w n t
    /\ (n <= 3)%nat /\ (count_gets t = n)
    /\ List.filter is_write t = []
    /\ t `prefix_of` retry_schedule (fetch_request url cookies timeout referer).
Proof.
  rewrite load_html_unfold. destruct (valid_url url).
  - unfold attempts_outcome.
    set (rq := fetch_request url cookies timeout referer).
    destruct (server (nreq w) rq) as [s0 b0|d0];
      [destruct (failed (HttpResp s0 b0));
       [destruct (server (S (nreq w)) rq) as [s1 b1|d1];
        [destruct (failed (HttpResp s1 b1));
         [destruct (server (S (S (nreq w))) rq) as [s2 b2|d2];
          [destruct (failed (HttpResp s2 b2))|]|]|]|]|];
    cbn [negb snd];
    eexists _, _; (split; [reflexivity|]);
    (split; [cbn; lia|]); (split; [reflexivity|]); (split; [reflexivity|]);
    eexists; reflexivity.
  - exists 0%nat, []. cbn [snd]. split.
    + unfold advance. destruct w. cbn. by rewrite app_nil_r.
    + split; [lia|]. split; [done|]. split; [done|]. eexists; reflexivity.
Qed.

(** C5. For every fetch, [load_html] sends at most three requests, and what
    it does follows the schedule request, 1.5 s, request, 2.5 s, request;
    after a first attempt answered by an unusable HTTP response it sleeps
    1.5 s and sends the request again, after a second one it sleeps 2.5 s
    and sends it a last time; and when the third answer is unusable too it
    raises the error of that last answer, which carries its HTTP status
    (or the challenge description for a 200). *)
Theorem load_html_retry_schedule server url cookies timeout referer w :
  let rq := fetch_request url cookies timeout referer in
  let r0 := server (nreq w) rq in
  let r1 := server (S (nreq w)) rq in
  let r2 := server (S (S (nreq w))) rq in
  let res := fst (load_html server url cookies timeout referer w) in
  let w' := snd (load_html server url cookies timeout referer w) in
  exists t, trace w' = trace w ++ t
    /\ t `prefix_of` retry_schedule rq
    /\ (count_gets t <= 3)%nat
    /\ (valid_url url = true -> failed r0 = true ->
        take 3 (retry_schedule rq) `prefix_of` t)
    /\ (valid_url url = true -> failed r0 = true -> failed r1 = true ->
        t = retry_schedule rq)
    /\ (valid_url url = true -> failed r0 = true -> failed r1 = true ->
        failed r2 = true -> res = Raise (last_error r2)).
Proof.
  cbv zeta. rewrite load_html_unfold. destruct (valid_url url).
  - unfold attempts_outcome.
    set (rq := fetch_request url cookies timeout referer).
    destruct (server (nreq w) rq) as [s0 b0|d0];
      [destruct (failed (HttpResp s0 b0));
       [destruct (server (S (nreq w)) rq) as [s1 b1|d1];
        [destruct (failed (HttpResp s1 b1));
         [destruct (server (S (S (nreq w))) rq) as [s2 b2|d2];
          [destruct (failed (HttpResp s2 b2))|]|]|]|]|];
    cbn [negb fst snd advance trace failed];
    eexists; (split; [reflexivity|]);
    (split; [eexists; reflexivity|]);
    (split; [cbn; lia|]);
    repeat split; intros; try discriminate; try reflexivity;
    eexists; reflexivity.
  - exists []. cbn [fst snd]. rewrite app_nil_r.
    repeat split; try discriminate; [apply prefix_nil | cbn; lia].
Qed.

Lemma load_html_retry_schedule_witness :
  fst (load_html Sites.always_429 Sites.seed_url None 60 None Sites.start)
  = Raise (HTTPError 429 (lit " Forbidden/Too Many Requests")).
Proof.
  destruct (load_html_retry_schedule Sites.always_429 Sites.seed_url None 60
              None Sites.start) as (t & _ & _ & _ & _ & _ & Hlast).
  apply Hlast; reflexivity.
Defined.

(** Two 429 answers, then a page: the page is returned after sleeps of
    1.5 s and 2.5 s. *)
Example load_html_twice_429 :
  load_html Sites.twice_429 Sites.seed_url None 60 None Sites.start
  = (Ok (lit "<html>ok</html>"),
     advance Sites.start 3
       (retry_schedule (fetch_request Sites.seed_url None 60 None))).
Proof. vm_compute. reflexivity. Qed.

(** C1, as stated, fails: a challenge page at the first attempt does not
    stop the fetch.  On a site that answers the first request with the
    challenge page and the second with a clean page, [load_html] sleeps,
    asks again and returns the clean page. *)
Lemma load_html_challenge_not_final :
  ~ (forall server url cookies timeout referer w,
       valid_url url = true ->
       is_challenge (server (nreq w) (fetch_request url cookies timeout referer))
       = true ->
       fst (load_html server url cookies timeout referer w)
       = Raise (RuntimeError BLOCKED_MSG)
       /\ nreq (snd (load_html server url cookies timeout referer w))
          = S (nreq w)).
Proof.
  intros H.
  destruct (H Sites.challenge_once Sites.seed_url None 60%Z None Sites.start
              eq_refl eq_refl) as [Hres _].
  vm_compute in Hres. discriminate Hres.
Qed.

Lemma challenge_failed r : is_challenge r = true -> failed r = true.
Proof.
  destruct r as [s b|d]; [|done]. simpl. intros H.
  apply andb_true_iff in H as [_ ->]. apply orb_true_r.
Qed.

Lemma last_error_blocked r :
  failed r = true ->
  (last_error r = RuntimeError BLOCKED_MSG <-> is_challenge r = true).
Proof.
  destruct r as [s b|d]; [|done]. simpl.
  destruct (s =? 200)%Z; simpl; intros H; rewrite ?H; split; done.
Qed.

(** C1, amended.  A challenge page is a failed attempt like any other.
    Answered at the first attempt, it is followed by a sleep of 1.5 s and
    the same call of [sess.get] (same URL, referer, [cookies=] argument and
    timeout) again; answered at the second attempt (after a failed first),
    it is followed by a sleep of 2.5 s and the call a third time.  Only a challenge page at the third attempt
    ends the fetch with the credential-rejection error, with no further
    request; the fetch raises that error in no other case, and a page it
    returns never carries the marker. *)
Theorem load_html_challenge_retried server url cookies timeout referer w
  (Hurl : valid_url url = true) :
  let rq := fetch_request url cookies timeout referer in
  let r0 := server (nreq w) rq in
  let r1 := server (S (nreq w)) rq in
  let r2 := server (S (S (nreq w))) rq in
  let res := fst (load_html server url cookies timeout referer w) in
  let w' := snd (load_html server url cookies timeout referer w) in
  exists t, trace w' = trace w ++ t
    /\ count_gets t = (nreq w' - nreq w)%nat
    /\ (is_challenge r0 = true -> take 3 (retry_schedule rq) `prefix_of` t)
    /\ (failed r0 = true -> is_challenge r1 = true -> t = retry_schedule rq)
    /\ (failed r0 = true -> failed r1 = true -> is_challenge r2 = true ->
        res = Raise (RuntimeError BLOCKED_MSG) /\ t = retry_schedule rq)
    /\ (res = Raise (RuntimeError BLOCKED_MSG)
        <-> failed r0 = true /\ failed r1 = true /\ is_challenge r2 = true)
    /\ (forall text, res = Ok text -> contains CHALLENGE text = false).
Proof.
  cbv zeta.
  assert (Hok : forall text,
             fst (load_html server url cookies timeout referer w) = Ok text ->
             contains CHALLENGE text = false).
  { intros text Hres.
    destruct (load_html server url cookies timeout referer w) as [res w'] eqn:E.
    simpl in Hres. subst res. by destruct (load_html_ok _ _ _ _ _ _ _ _ E). }
  revert Hok. rewrite load_html_unfold, Hurl. unfold attempts_outcome.
  set (rq := fetch_request url cookies timeout referer) in *.
  pose proof (challenge_failed (server (nreq w) rq)) as C0.
  pose proof (challenge_failed (server (S (nreq w)) rq)) as C1.
  pose proof (challenge_failed (server (S (S (nreq w))) rq)) as C2.
  pose proof (last_error_blocked (server (S (S (nreq w))) rq)) as L2.
  destruct (server (nreq w) rq) as [s0 b0|d0];
    [destruct (failed (HttpResp s0 b0)) eqn:Hf0;
     [destruct (server (S (nreq w)) rq) as [s1 b1|d1];
      [destruct (failed (HttpResp s1 b1)) eqn:Hf1;
       [destruct (server (S (S (nreq w))) rq) as [s2 b2|d2];
        [destruct (failed (HttpResp s2 b2)) eqn:Hf2|]|]|]|]|];
    cbn [negb fst snd advance trace nreq]; intros Hok;
    eexists; (split; [reflexivity|]);
    (split; [cbn; lia|]);
    (split; [intros Hc; first [eexists; reflexivity
                              | specialize (C0 Hc); discriminate C0]|]);
    (split; [intros H0 Hc; first [reflexivity
                                 | discriminate H0
                                 | specialize (C1 Hc); discriminate C1]|]);
    (split; [intros H0 H1 Hc;
             first [discriminate H0 | discriminate H1
                   | specialize (C2 Hc); discriminate C2
                   | split; [f_equal; by apply L2 | reflexivity]]|]);
    (split; [|exact Hok]).
  all: split;
    [ intros Hr; first [discriminate Hr
                       | injection Hr as Hr; repeat split; try reflexivity;
                         by apply L2]
    | intros (H0 & H1 & Hc);
      first [discriminate H0 | discriminate H1
            | specialize (C2 Hc); discriminate C2
            | f_equal; by apply L2] ].
Qed.

Lemma load_html_challenge_retried_witness :
  fst (load_html Sites.challenge_always Sites.seed_url None 60 None Sites.start)
  = Raise (RuntimeError BLOCKED_MSG).
Proof.
  destruct (load_html_challenge_retried Sites.challenge_always Sites.seed_url
              None 60%Z None Sites.start eq_refl)
    as (t & _ & _ & _ & _ & Hlast & _).
  apply Hlast; reflexivity.
Defined.

(** ** The crawl driver *)

(** The two-page scenario: the header, the three rows, and a normal end
    after two pages and two requests. *)
Example main_two_pages :
  main TwoPages.server TwoPages.HTML TwoPages.NFKC TwoPages.bracketed_ok TwoPages.clock
       (TwoPages.run 0) 5
  = (Terminated,
     {| current_url := TwoPages.page2_url; prev_url := Some TwoPages.page2_url;
        page_index := 2 |},
     {| nreq := 2;
        trace :=
          [EvWrite HEADER;
           EvGet {| req_url := Sites.seed_url; req_referer := DEFAULT_REFERER;
                    req_cookies := Some (<[lit "k" := lit "v"]> ∅);
                    req_timeout := 60 |};
           EvWrite [lit "Shop A"; 165 :: lit "35"; lit "Dish1" ++ DISH_SEP ++ lit "Dish2"];
           EvWrite [lit "Shop B"; []; []];
           EvGet {| req_url := TwoPages.page2_url; req_referer := Sites.seed_url;
                    req_cookies := Some (<[lit "k" := lit "v"]> ∅);
                    req_timeout := 60 |};
           EvWrite [lit "Shop C"; 165 :: lit "50"; lit "Dish3"]];
        file :=
          [HEADER;
           [lit "Shop A"; 165 :: lit "35"; lit "Dish1" ++ DISH_SEP ++ lit "Dish2"];
           [lit "Shop B"; []; []];
           [lit "Shop C"; 165 :: lit "50"; lit "Dish3"]] |}).
Proof. vm_compute. reflexivity. Qed.

Lemma write_shops_unfold shops : forall w,
  write_shops shops w
  = {| nreq := nreq w;
       trace := trace w ++ ((fun s => EvWrite (shop_row s)) <$> shops);
       file := file w ++ (shop_row <$> shops) |}.
Proof.
  unfold write_shops.
  induction shops as [|s shops IH]; intros w; cbn [fold_left].
  - rewrite !fmap_nil, !app_nil_r. by destruct w.
  - rewrite IH. unfold writerow. cbn [nreq trace file].
    rewrite !fmap_cons, <- !app_assoc. reflexivity.
Qed.

Lemma count_gets_app t1 t2 :
  count_gets (t1 ++ t2) = (count_gets t1 + count_gets t2)%nat.
Proof. unfold count_gets. by rewrite List.filter_app, length_app. Qed.

Lemma count_gets_writes (shops : list shop) :
  count_gets ((fun s => EvWrite (shop_row s)) <$> shops) = 0%nat.
Proof. induction shops as [|s shops IH]; [done | exact IH]. Qed.

Lemma filter_writes (shops : list shop) :
  List.filter is_write ((fun s => EvWrite (shop_row s)) <$> shops)
  = (fun s => EvWrite (shop_row s)) <$> shops.
Proof.
  induction shops as [|s shops IH]; [done|].
  rewrite fmap_cons. cbn [List.filter is_write]. by rewrite IH.
Qed.

(** What one turn of the loop does to the session and the world. *)
Lemma loop_body_inv server HTML NFKC chk clk a s w st s' w' :
  loop_body server HTML NFKC chk clk a s w = (st, s', w') ->
  page_index s' = (page_index s + 1)%Z
  /\ (exists shops t,
        file w' = file w ++ (shop_row <$> shops)
        /\ trace w' = trace w ++ t
        /\ (count_gets t <= 3)%nat
        /\ List.filter is_write t = (fun s => EvWrite (shop_row s)) <$> shops
        /\ Forall (extracted_from server HTML) shops)
  /\ (st = Running ->
      current_url s' <> current_url s /\ current_url s' <> []
      /\ prev_url s' = Some (current_url s)
      /\ (max_pages a = 0 \/ page_index s' < max_pages a)%Z).
Proof.
  unfold loop_body. cbn [page_index current_url prev_url].
  set (referer := if (page_index s + 1 =? 1)%Z then _ else _).
  clearbody referer. destruct referer as [referer|e].
  2:{ intros [= <- <- <-]. cbn. split; [done|]. split; [|done].
      exists [], []. rewrite !app_nil_r. repeat split; try done; cbn; lia. }
  destruct (load_html server (current_url s) (Some (cookies a)) (timeout a)
                      (Some referer) w) as [res w1] eqn:EL.
  destruct (load_html_frame server (current_url s) (Some (cookies a)) (timeout a)
                            (Some referer) w) as (n & t & Hw1 & Hn & Hg & Hwr & _).
  rewrite EL in Hw1. cbn [snd] in Hw1.
  assert (Hframe : forall st0 s0,
            (st0, s0, w1) = (st, s', w') ->
            exists shops t0,
              file w' = file w ++ (shop_row <$> shops)
              /\ trace w' = trace w ++ t0 /\ (count_gets t0 <= 3)%nat
              /\ List.filter is_write t0 = (fun s => EvWrite (shop_row s)) <$> shops
              /\ Forall (extracted_from server HTML) shops).
  { intros st0 s0 [= _ _ <-]. exists [], t. subst w1. cbn.
    rewrite app_nil_r. repeat split; try done. lia. }
  destruct res as [html_text|e].
  2:{ intros H. split; [by injection H as _ <- _|].
      split; [by apply (Hframe _ _ H)|]. by injection H as <- _ _. }
  destruct (contains CHALLENGE html_text).
  { intros H. split; [by injection H as _ <- _|].
    split; [by apply (Hframe _ _ H)|]. by injection H as <- _ _. }
  destruct (extract_shops HTML html_text) as [shops|e] eqn:EX.
  2:{ intros H. split; [by injection H as _ <- _|].
      split; [by apply (Hframe _ _ H)|]. by injection H as <- _ _. }
  clear Hframe.
  assert (Hshops : Forall (extracted_from server HTML) shops).
  { apply Forall_forall. intros x Hx. apply list_elem_of_In in Hx.
    destruct (load_html_ok _ _ _ _ _ _ _ _ EL) as (_ & n0 & rq0 & Hsrv).
    by exists n0, rq0, html_text, shops. }
  assert (Hframe : forall st0 s0 t1,
            List.filter is_write t1 = [] -> count_gets t1 = 0%nat ->
            (st0, s0,
             {| nreq := nreq (write_shops shops w1);
                trace := trace (write_shops shops w1) ++ t1;
                file := file (write_shops shops w1) |}) = (st, s', w') ->
            exists shops t0,
              file w' = file w ++ (shop_row <$> shops)
              /\ trace w' = trace w ++ t0 /\ (count_gets t0 <= 3)%nat
              /\ List.filter is_write t0 = (fun s => EvWrite (shop_row s)) <$> shops
              /\ Forall (extracted_from server HTML) shops).
  { intros st0 s0 t1 Ht1 Hg1 [= _ _ <-].
    exists shops, (t ++ ((fun s => EvWrite (shop_row s)) <$> shops) ++ t1).
    rewrite write_shops_unfold. subst w1. cbn [advance nreq trace file].
    rewrite <- !app_assoc. repeat split; try done.
    - rewrite !count_gets_app, count_gets_writes, Hg1. lia.
    - rewrite !List.filter_app, Hwr, Ht1, filter_writes, app_nil_r. done. }
  assert (Hsame : forall w0 : world,
            w0 = {| nreq := nreq w0; trace := trace w0 ++ []; file := file w0 |}).
  { intros [? ? ?]. cbn. by rewrite app_nil_r. }
  destruct (negb (max_pages a =? 0)%Z && (max_pages a <=? page_index s + 1)%Z)
    eqn:Hceil.
  { intros H. rewrite (Hsame (write_shops shops w1)) in H.
    split; [by injection H as _ <- _|].
    split; [by apply (Hframe _ _ [] eq_refl eq_refl H)|]. by injection H as <- _ _. }
  destruct (HTML html_text) as [[doc|]|e].
  2,3:(intros H; rewrite (Hsame (write_shops shops w1)) in H;
       split; [by injection H as _ <- _|];
       split; [by apply (Hframe _ _ [] eq_refl eq_refl H)|];
       by injection H as <- _ _).
  destruct (get_next_page_url NFKC chk doc (current_url s)) as [[next_url|]|e].
  - destruct (is_empty next_url || PyStr.eqb next_url (current_url s)) eqn:Hnext.
    + intros H. rewrite (Hsame (write_shops shops w1)) in H.
      split; [by injection H as _ <- _|].
      split; [by apply (Hframe _ _ [] eq_refl eq_refl H)|]. by injection H as <- _ _.
    + apply orb_false_iff in Hnext as [Hne Hneq].
      apply is_empty_false in Hne. apply eqb_false in Hneq.
      assert (Hceil' : (max_pages a = 0 \/ page_index s + 1 < max_pages a)%Z).
      { apply andb_false_iff in Hceil as [Hc|Hc].
        - left. apply negb_false_iff, Z.eqb_eq in Hc. done.
        - right. apply Z.leb_gt in Hc. done. }
      destruct (gt0 (sleep a)).
      * unfold time_sleep.
        destruct (sleep a) as [q| | |];
          [destruct (clk q) as [e|];
           [|destruct (negb (Qle_bool 0 q))]| | |];
          intros H;
          try (rewrite (Hsame (write_shops shops w1)) in H;
               split; [by injection H as _ <- _|];
               split; [by apply (Hframe _ _ [] eq_refl eq_refl H)|];
               by injection H as <- _ _).
        split; [by injection H as _ <- _|]. split.
        -- eapply (Hframe Running _ [EvSleep q] eq_refl eq_refl).
           rewrite <- H. reflexivity.
        -- intros _. injection H as _ <- _. cbn. done.
      * intros H. rewrite (Hsame (write_shops shops w1)) in H.
        split; [by injection H as _ <- _|].
        split; [by apply (Hframe _ _ [] eq_refl eq_refl H)|].
        intros _. injection H as _ <- _. cbn. done.
  - intros H. rewrite (Hsame (write_shops shops w1)) in H.
    split; [by injection H as _ <- _|].
    split; [by apply (Hframe _ _ [] eq_refl eq_refl H)|]. by injection H as <- _ _.
  - intros H. rewrite (Hsame (write_shops shops w1)) in H.
    split; [by injection H as _ <- _|].
    split; [by apply (Hframe _ _ [] eq_refl eq_refl H)|]. by injection H as <- _ _.
Qed.

(** What a run of the loop does, for any amount of fuel. *)
Lemma crawl_inv server HTML NFKC chk clk a fuel : forall s w st s' w',
  crawl server HTML NFKC chk clk a fuel s w = (st, s', w') ->
  (page_index s <= page_index s')%Z
  /\ (exists shops t,
        file w' = file w ++ (shop_row <$> shops)
        /\ trace w' = trace w ++ t
        /\ (count_gets t <= 3 * Z.to_nat (page_index s' - page_index s))%nat
        /\ List.filter is_write t = (fun s => EvWrite (shop_row s)) <$> shops
        /\ Forall (extracted_from server HTML) shops)
  /\ ((0 < max_pages a)%Z -> (page_index s < max_pages a)%Z ->
      (page_index s' <= max_pages a)%Z
      /\ ((Z.to_nat (max_pages a - page_index s) <= fuel)%nat -> st <> Running)).
Proof.
  assert (Hstay : forall (s : session) (w : world),
            (page_index s <= page_index s)%Z
            /\ (exists shops t,
                  file w = file w ++ (shop_row <$> shops)
                  /\ trace w = trace w ++ t
                  /\ (count_gets t <= 3 * Z.to_nat (page_index s - page_index s))%nat
                  /\ List.filter is_write t = (fun s => EvWrite (shop_row s)) <$> shops
                  /\ Forall (extracted_from server HTML) shops)).
  { intros s w. split; [lia|]. exists [], []. rewrite !app_nil_r.
    repeat split; try done. cbn. lia. }
  induction fuel as [|fuel IH]; intros s w st s' w'; cbn [crawl].
  - destruct (is_empty (current_url s)); intros [= <- <- <-];
      (destruct (Hstay s w) as [H1 H2]; split; [exact H1|]; split; [exact H2|]);
      intros Hmax Hlt; (split; [lia|]); intros Hfuel; [done | lia].
  - destruct (is_empty (current_url s)).
    { intros [= <- <- <-].
      destruct (Hstay s w) as [H1 H2]. split; [exact H1|]. split; [exact H2|].
      intros Hmax Hlt. split; [lia | done]. }
    destruct (loop_body server HTML NFKC chk clk a s w) as [[st1 s1] w1] eqn:EB.
    destruct (loop_body_inv _ _ _ _ _ _ _ _ _ _ _ EB)
      as (Hidx & (shops1 & t1 & Hf1 & Ht1 & Hg1 & Hw1 & He1) & Hrun).
    assert (Hstop : st1 <> Running -> (st1, s1, w1) = (st, s', w') ->
              (page_index s <= page_index s')%Z
              /\ (exists shops t,
                    file w' = file w ++ (shop_row <$> shops)
                    /\ trace w' = trace w ++ t
                    /\ (count_gets t <= 3 * Z.to_nat (page_index s' - page_index s))%nat
                    /\ List.filter is_write t = (fun s => EvWrite (shop_row s)) <$> shops
                    /\ Forall (extracted_from server HTML) shops)
              /\ ((0 < max_pages a)%Z -> (page_index s < max_pages a)%Z ->
                  (page_index s' <= max_pages a)%Z
                  /\ ((Z.to_nat (max_pages a - page_index s) <= S fuel)%nat ->
                      st <> Running))).
    { intros Hst [= <- <- <-]. split; [lia|]. split.
      - exists shops1, t1. repeat split; try done. lia.
      - intros Hmax Hlt. split; [lia | done]. }
    destruct st1; [|by apply Hstop|by apply Hstop]. clear Hstop.
    destruct (Hrun eq_refl) as (_ & _ & _ & Hceil).
    intros Hc.
    destruct (IH _ _ _ _ _ Hc)
      as (Hle & (shops2 & t2 & Hf2 & Ht2 & Hg2 & Hw2 & He2) & Hbound).
    split; [lia|]. split.
    + exists (shops1 ++ shops2), (t1 ++ t2).
      rewrite Hf2, Hf1, Ht2, Ht1, !fmap_app, <- !app_assoc.
      repeat split; try done.
      * rewrite count_gets_app. lia.
      * rewrite List.filter_app, Hw1, Hw2. done.
      * by apply Forall_app.
    + intros Hmax Hlt.
      destruct Hbound as [Hb1 Hb2]; [lia | lia |].
      split; [exact Hb1|]. intros Hfuel. apply Hb2. lia.
Qed.

(** A turn whose fetch raises fails with that exception. *)
Lemma loop_body_fetch_raises server HTML NFKC chk clk a s w referer e w1 :
  turn_referer s = Some referer ->
  load_html server (current_url s) (Some (cookies a)) (timeout a)
            (Some referer) w = (Raise e, w1) ->
  loop_body server HTML NFKC chk clk a s w = (Failed e, bump s, w1).
Proof.
  unfold turn_referer, loop_body, bump.
  cbn [page_index current_url prev_url]. intros Href Hload.
  destruct (page_index s + 1 =? 1)%Z.
  - injection Href as <-. by rewrite Hload.
  - rewrite Href. by rewrite Hload.
Qed.

(** A turn that reaches the page ceiling ends once the page is fetched
    and extracted, whatever links the page has: with the rows written and
    the loop left, or with the exception of the parser. *)
Lemma loop_body_ceiling_turn server HTML NFKC chk clk a s w referer html_text w1 :
  turn_referer s = Some referer ->
  load_html server (current_url s) (Some (cookies a)) (timeout a)
            (Some referer) w = (Ok html_text, w1) ->
  max_pages a <> 0%Z -> (max_pages a <= page_index s + 1)%Z ->
  loop_body server HTML NFKC chk clk a s w
  = match extract_shops HTML html_text with
    | Ok shops => (Terminated, bump s, write_shops shops w1)
    | Raise e => (Failed e, bump s, w1)
    end.
Proof.
  unfold turn_referer, loop_body, bump.
  cbn [page_index current_url prev_url]. intros Href Hload Hmax Hceil.
  destruct (load_html_ok _ _ _ _ _ _ _ _ Hload) as [Hclean _].
  assert (Hc : negb (max_pages a =? 0)%Z && (max_pages a <=? page_index s + 1)%Z
               = true).
  { apply andb_true_iff. split.
    - apply negb_true_iff. by apply Z.eqb_neq.
    - by apply Z.leb_le. }
  destruct (page_index s + 1 =? 1)%Z;
    [injection Href as <- | rewrite Href];
    rewrite Hload, Hclean; (destruct (extract_shops HTML html_text); [|done]);
    by rewrite Hc.
Qed.

Lemma loop_body_ceiling server HTML NFKC chk clk a s w referer html_text w1 o :
  turn_referer s = Some referer ->
  load_html server (current_url s) (Some (cookies a)) (timeout a)
            (Some referer) w = (Ok html_text, w1) ->
  HTML html_text = Ok o ->
  max_pages a <> 0%Z -> (max_pages a <= page_index s + 1)%Z ->
  exists shops,
    extract_shops HTML html_text = Ok shops
    /\ loop_body server HTML NFKC chk clk a s w
       = (Terminated, bump s, write_shops shops w1).
Proof.
  intros Href Hload Hparse Hmax Hceil.
  destruct (extract_shops_parsed HTML html_text o Hparse) as [shops Hs].
  exists shops. split; [done|].
  rewrite (loop_body_ceiling_turn server HTML NFKC chk clk a s w referer
             html_text w1 Href Hload Hmax Hceil).
  by rewrite Hs.
Qed.

(** A turn whose page links to its own URL ends the loop. *)
Lemma loop_body_self_link server HTML NFKC chk clk a s w referer html_text w1 doc :
  turn_referer s = Some referer ->
  load_html server (current_url s) (Some (cookies a)) (timeout a)
            (Some referer) w = (Ok html_text, w1) ->
  HTML html_text = Ok (Some doc) ->
  get_next_page_url NFKC chk doc (current_url s) = Ok (Some (current_url s)) ->
  fst (fst (loop_body server HTML NFKC chk clk a s w)) = Terminated.
Proof.
  unfold turn_referer, loop_body, bump.
  cbn [page_index current_url prev_url]. intros Href Hload Hdoc Hnext.
  destruct (load_html_ok _ _ _ _ _ _ _ _ Hload) as [Hclean _].
  destruct (extract_shops_parsed HTML html_text _ Hdoc) as [shops Hex].
  destruct (page_index s + 1 =? 1)%Z;
    [injection Href as <- | rewrite Href];
    rewrite Hload, Hclean, Hex, Hdoc, Hnext, eqb_refl, orb_true_r;
    by destruct (negb (max_pages a =? 0)%Z && _).
Qed.

(** The state of [main] when it returns, fails or runs out of fuel. *)
Lemma main_inv server HTML NFKC chk clk a fuel st s w :
  main server HTML NFKC chk clk a fuel = (st, s, w) ->
  (0 <= page_index s)%Z
  /\ (exists shops t,
        file w = HEADER :: (shop_row <$> shops)
        /\ trace w = EvWrite HEADER :: t
        /\ (count_gets t <= 3 * Z.to_nat (page_index s))%nat
        /\ List.filter is_write t = (fun s => EvWrite (shop_row s)) <$> shops
        /\ Forall (extracted_from server HTML) shops)
  /\ ((0 < max_pages a)%Z ->
      (page_index s <= max_pages a)%Z
      /\ ((Z.to_nat (max_pages a) <= fuel)%nat -> st <> Running)).
Proof.
  unfold main. intros Hc.
  destruct (crawl_inv _ _ _ _ _ _ _ _ _ _ _ _ Hc)
    as (Hle & (shops & t & Hf & Ht & Hg & Hw & He) & Hbound).
  cbn [page_index file trace writerow app] in *.
  rewrite Z.sub_0_r in *.
  split; [done|]. split; [by exists shops, t|].
  intros Hmax. destruct (Hbound Hmax Hmax) as [H1 H2]. done.
Qed.

(** C3, as stated, fails: the header row that [main] writes does not name
    its second column [average_price]. *)
Lemma header_not_average_price :
  ~ (forall server HTML NFKC chk clk a fuel,
       exists rows,
         file (snd (main server HTML NFKC chk clk a fuel))
         = [lit "name"; lit "average_price"; lit "recommended_dishes"] :: rows).
Proof.
  intros H.
  destruct (H TwoPages.server TwoPages.HTML TwoPages.NFKC TwoPages.bracketed_ok TwoPages.clock
              (TwoPages.run 0) 0%nat) as [rows Hrows].
  vm_compute in Hrows. discriminate Hrows.
Qed.

(** C3, amended.  For every crawl run, whether it ends, fails or is still
    going, the rows written are one header row followed by the rows of
    extracted Records only, and the header row names the three columns
    exactly [name], [avg_price], [recommended_dishes]. *)
Theorem main_writes_header_once server HTML NFKC chk clk a fuel :
  HEADER = [lit "name"; lit "avg_price"; lit "recommended_dishes"]
  /\ exists shops,
       file (snd (main server HTML NFKC chk clk a fuel))
       = HEADER :: (shop_row <$> shops)
       /\ List.filter is_write (trace (snd (main server HTML NFKC chk clk a fuel)))
          = EvWrite HEADER :: ((fun s => EvWrite (shop_row s)) <$> shops)
       /\ Forall (extracted_from server HTML) shops.
Proof.
  split; [reflexivity|].
  destruct (main server HTML NFKC chk clk a fuel) as [[st s] w] eqn:E.
  destruct (main_inv _ _ _ _ _ _ _ _ _ _ E)
    as (_ & (shops & t & Hf & Ht & _ & Hw & He) & _).
  exists shops. cbn [snd]. rewrite Hf, Ht. cbn [List.filter is_write].
  rewrite Hw. done.
Qed.

(** What one turn leaves in the file: nothing new, or the rows of the
    page it fetched. *)
Lemma loop_body_file server HTML NFKC chk clk a s w st s' w' :
  loop_body server HTML NFKC chk clk a s w = (st, s', w') ->
  file w' = file w
  \/ exists referer html_text w1 shops,
       turn_referer s = Some referer
       /\ load_html server (current_url s) (Some (cookies a)) (timeout a)
                    (Some referer) w = (Ok html_text, w1)
       /\ extract_shops HTML html_text = Ok shops
       /\ file w' = file w ++ (shop_row <$> shops).
Proof.
  unfold loop_body, turn_referer. cbn [page_index current_url prev_url].
  assert (Href : exists r : result str,
            r = (if (page_index s + 1 =? 1)%Z then Ok DEFAULT_REFERER
                 else match prev_url s with
                      | Some p => Ok p
                      | None => Raise UnboundLocalError
                      end)
            /\ forall referer, r = Ok referer ->
                 (if (page_index s + 1 =? 1)%Z then Some DEFAULT_REFERER
                  else prev_url s) = Some referer).
  { eexists. split; [reflexivity|]. intros referer.
    destruct (page_index s + 1 =? 1)%Z; [by intros [= ->]|].
    destruct (prev_url s); [by intros [= ->] | done]. }
  destruct Href as (r & <- & Href).
  destruct r as [referer|e]; [|intros [= _ _ <-]; by left].
  specialize (Href referer eq_refl).
  destruct (load_html server (current_url s) (Some (cookies a)) (timeout a)
                      (Some referer) w) as [res w1] eqn:EL.
  destruct (load_html_frame server (current_url s) (Some (cookies a)) (timeout a)
                            (Some referer) w) as (n & t & Hw1 & _).
  rewrite EL in Hw1. cbn [snd] in Hw1.
  assert (Hfile : file w1 = file w) by (by subst w1).
  destruct res as [html_text|e]; [|intros [= _ _ <-]; by left].
  destruct (contains CHALLENGE html_text); [intros [= _ _ <-]; by left|].
  destruct (extract_shops HTML html_text) as [shops|e] eqn:EX;
    [|intros [= _ _ <-]; by left].
  intros H. right. exists referer, html_text, w1, shops.
  split; [exact Href|]. split; [exact EL|]. split; [exact EX|].
  rewrite <- Hfile.
  assert (Hws : file (write_shops shops w1) = file w1 ++ (shop_row <$> shops))
    by (by rewrite write_shops_unfold).
  rewrite <- Hws. revert H.
  destruct (negb (max_pages a =? 0)%Z && (max_pages a <=? page_index s + 1)%Z);
    [by intros [= _ _ <-]|].
  destruct (HTML html_text) as [[doc|]|e]; [|by intros [= _ _ <-]..].
  destruct (get_next_page_url NFKC chk doc (current_url s)) as [[next_url|]|e];
    [|by intros [= _ _ <-]..].
  destruct (is_empty next_url || PyStr.eqb next_url (current_url s));
    [by intros [= _ _ <-]|].
  destruct (gt0 (sleep a)); [|by intros [= _ _ <-]].
  unfold time_sleep.
  destruct (sleep a) as [q| | |];
    [destruct (clk q) as [e|]; [|destruct (negb (Qle_bool 0 q))]| | |];
    by intros [= _ _ <-].
Qed.

(** A run that leaves the page counter where it was has run no turn. *)
Lemma crawl_same_index server HTML NFKC chk clk a fuel s w st s' w' :
  crawl server HTML NFKC chk clk a fuel s w = (st, s', w') ->
  page_index s' = page_index s -> w' = w.
Proof.
  destruct fuel as [|fuel]; cbn [crawl].
  - by destruct (is_empty (current_url s)); intros [= _ _ <-].
  - destruct (is_empty (current_url s)); [by intros [= _ _ <-]|].
    destruct (loop_body server HTML NFKC chk clk a s w) as [[st1 s1] w1] eqn:EB.
    destruct (loop_body_inv _ _ _ _ _ _ _ _ _ _ _ EB) as (Hidx & _ & _).
    destruct st1; [|intros [= _ <- _]; lia..].
    intros Hc Hsame.
    destruct (crawl_inv _ _ _ _ _ _ _ _ _ _ _ _ Hc) as (Hle & _). lia.
Qed.

(** C10, as worded, fails: a crawl can fail on its very first page after
    the rows of that page are written.  On a site whose first page has one
    block and a next link that does not resolve, the crawl fails with the
    page counter at 1 and leaves the header row and one data row. *)
Theorem first_page_failure_leaves_rows :
  main BrokenLink.server BrokenLink.HTML TwoPages.NFKC TwoPages.bracketed_ok
       TwoPages.clock (TwoPages.run 0) 1
  = (Failed (ValueError (lit "Invalid IPv6 URL")),
     {| current_url := Sites.seed_url; prev_url := Some Sites.seed_url;
        page_index := 1 |},
     {| nreq := 1;
        trace :=
          [EvWrite HEADER;
           EvGet {| req_url := Sites.seed_url; req_referer := DEFAULT_REFERER;
                    req_cookies := Some (<[lit "k" := lit "v"]> ∅);
                    req_timeout := 60 |};
           EvWrite [lit "Shop B"; []; []]];
        file := [HEADER; [lit "Shop B"; []; []]] |})
  /\ ~ (forall server HTML NFKC chk clk a fuel e,
          fst (fst (main server HTML NFKC chk clk a fuel)) = Failed e ->
          page_index (snd (fst (main server HTML NFKC chk clk a fuel))) = 1%Z ->
          file (snd (main server HTML NFKC chk clk a fuel)) = [HEADER]).
Proof.
  assert (H : main BrokenLink.server BrokenLink.HTML TwoPages.NFKC
                   TwoPages.bracketed_ok TwoPages.clock (TwoPages.run 0) 1
              = (Failed (ValueError (lit "Invalid IPv6 URL")),
                 {| current_url := Sites.seed_url;
                    prev_url := Some Sites.seed_url; page_index := 1 |},
                 {| nreq := 1;
                    trace :=
                      [EvWrite HEADER;
                       EvGet {| req_url := Sites.seed_url;
                                req_referer := DEFAULT_REFERER;
                                req_cookies := Some (<[lit "k" := lit "v"]> ∅);
                                req_timeout := 60 |};
                       EvWrite [lit "Shop B"; []; []]];
                    file := [HEADER; [lit "Shop B"; []; []]] |}))
    by (vm_compute; reflexivity).
  split; [exact H|]. intros Hall.
  specialize (Hall BrokenLink.server BrokenLink.HTML TwoPages.NFKC
                   TwoPages.bracketed_ok TwoPages.clock (TwoPages.run 0) 1%nat
                   (ValueError (lit "Invalid IPv6 URL"))).
  rewrite H in Hall. cbn [fst snd page_index file] in Hall.
  specialize (Hall eq_refl eq_refl). discriminate Hall.
Qed.

(** C10, amended.  For every crawl run, the first thing that happens is
    the write of the header row, before any request; a crawl whose first
    fetch fails leaves the file with exactly the header row, and so does a
    crawl of a site whose pages all extract to zero records; and a crawl
    that ends, fails or is cut short with its page counter at 1 leaves the
    header row alone or the header row followed by the rows of the Records
    of the first page. *)
Theorem header_before_first_fetch server HTML NFKC chk clk a fuel :
  let st := fst (fst (main server HTML NFKC chk clk a fuel)) in
  let s := snd (fst (main server HTML NFKC chk clk a fuel)) in
  let w := snd (main server HTML NFKC chk clk a fuel) in
  (exists t rows, trace w = EvWrite HEADER :: t /\ file w = HEADER :: rows)
  /\ (forall e,
        url a <> [] -> fuel <> 0%nat ->
        fst (load_html server (url a) (Some (cookies a)) (timeout a)
                       (Some DEFAULT_REFERER) after_header) = Raise e ->
        st = Failed e /\ file w = [HEADER])
  /\ ((forall n rq body,
         server n rq = HttpResp 200 body -> extract_shops HTML body = Ok []) ->
      file w = [HEADER])
  /\ (page_index s = 1%Z ->
      file w = [HEADER]
      \/ exists html_text w1 shops,
           load_html server (url a) (Some (cookies a)) (timeout a)
                     (Some DEFAULT_REFERER) after_header = (Ok html_text, w1)
           /\ extract_shops HTML html_text = Ok shops
           /\ file w = HEADER :: (shop_row <$> shops)).
Proof.
  cbv zeta.
  destruct (main server HTML NFKC chk clk a fuel) as [[st s] w] eqn:E.
  cbn [fst snd].
  destruct (main_inv _ _ _ _ _ _ _ _ _ _ E)
    as (_ & (shops & t & Hf & Ht & _ & _ & He) & _).
  split; [by exists t, (shop_row <$> shops)|]. split; [|split].
  - intros e Hurl Hfuel Hload.
    destruct fuel as [|fuel]; [done|].
    unfold main in E. cbn [crawl current_url] in E.
    apply is_empty_false in Hurl. rewrite Hurl in E.
    fold after_header in E.
    destruct (load_html server (url a) (Some (cookies a)) (timeout a)
                        (Some DEFAULT_REFERER) after_header) as [res w1] eqn:EL.
    cbn [fst] in Hload. subst res.
    rewrite (loop_body_fetch_raises server HTML NFKC chk clk a
               {| current_url := url a; prev_url := None; page_index := 0 |}
               after_header DEFAULT_REFERER e w1 eq_refl EL) in E.
    injection E as <- _ <-. split; [done|].
    destruct (load_html_frame server (url a) (Some (cookies a)) (timeout a)
                (Some DEFAULT_REFERER) after_header) as (n & t' & Hw1 & _).
    rewrite EL in Hw1. cbn [snd] in Hw1. subst w1. reflexivity.
  - intros Hzero. rewrite Hf. f_equal.
    destruct shops as [|x shops]; [done|].
    apply Forall_cons in He as [(n & rq & body & page_shops & Hsrv & Hex & Hin) _].
    rewrite (Hzero _ _ _ Hsrv) in Hex. injection Hex as <-. destruct Hin.
  - clear shops t Hf Ht He. intros Hone.
    unfold main in E. fold after_header in E.
    destruct fuel as [|fuel]; cbn [crawl current_url] in E.
    { destruct (is_empty (url a)); injection E as _ <- _; discriminate Hone. }
    destruct (is_empty (url a)); [injection E as _ <- _; discriminate Hone|].
    destruct (loop_body server HTML NFKC chk clk a
                {| current_url := url a; prev_url := None; page_index := 0 |}
                after_header) as [[st1 s1] w1] eqn:EB.
    destruct (loop_body_inv _ _ _ _ _ _ _ _ _ _ _ EB) as (Hidx & _ & _).
    cbn [page_index] in Hidx.
    assert (Hw : w = w1).
    { destruct st1; [|by injection E as _ _ <-..].
      apply (crawl_same_index _ _ _ _ _ _ _ _ _ _ _ _ E). lia. }
    subst w1.
    destruct (loop_body_file _ _ _ _ _ _ _ _ _ _ _ EB)
      as [Hsame|(referer & html_text & w1 & shops & Href & Hload & Hex & Hfile)].
    + left. exact Hsame.
    + right. injection Href as <-. exists html_text, w1, shops.
      split; [exact Hload|]. split; [exact Hex|]. exact Hfile.
Qed.

Lemma header_before_first_fetch_witness :
  file (snd (main Sites.always_429 TwoPages.HTML TwoPages.NFKC
                  TwoPages.bracketed_ok TwoPages.clock (TwoPages.run 0) 1))
  = [HEADER].
Proof.
  pose proof (header_before_first_fetch Sites.always_429 TwoPages.HTML
                TwoPages.NFKC TwoPages.bracketed_ok TwoPages.clock
                (TwoPages.run 0) 1) as H.
  cbv zeta in H. destruct H as (_ & Hfail & _).
  apply (Hfail (HTTPError 429 (lit " Forbidden/Too Many Requests")));
    [discriminate | discriminate | reflexivity].
Defined.

(** C4. For every crawl with [max_pages > 0]: the page counter never
    exceeds [max_pages], at most three requests are sent per page counted,
    and the loop has stopped once [max_pages] turns have run; a turn that
    reaches the ceiling ends as soon as its page is fetched and extracted,
    without looking at the page's links: the rows are written and the loop
    is left, unless the parser raises on the page; a turn that goes
    on to another page never goes on to the URL it has just processed, and
    a page whose next link resolves to its own URL ends the loop. *)
Theorem crawl_respects_max_pages server HTML NFKC chk clk a fuel
  (Hmax : (0 < max_pages a)%Z) :
  let st := fst (fst (main server HTML NFKC chk clk a fuel)) in
  let s := snd (fst (main server HTML NFKC chk clk a fuel)) in
  let w := snd (main server HTML NFKC chk clk a fuel) in
  (0 <= page_index s <= max_pages a)%Z
  /\ (count_gets (trace w) <= 3 * Z.to_nat (page_index s))%nat
  /\ ((Z.to_nat (max_pages a) <= fuel)%nat -> st <> Running)
  /\ (forall s0 w0 referer html_text w1,
        turn_referer s0 = Some referer ->
        load_html server (current_url s0) (Some (cookies a)) (timeout a)
                  (Some referer) w0 = (Ok html_text, w1) ->
        (max_pages a <= page_index s0 + 1)%Z ->
        loop_body server HTML NFKC chk clk a s0 w0
        = match extract_shops HTML html_text with
          | Ok shops => (Terminated, bump s0, write_shops shops w1)
          | Raise e => (Failed e, bump s0, w1)
          end)
  /\ (forall s0 w0 referer html_text w1 o,
        turn_referer s0 = Some referer ->
        load_html server (current_url s0) (Some (cookies a)) (timeout a)
                  (Some referer) w0 = (Ok html_text, w1) ->
        HTML html_text = Ok o ->
        (max_pages a <= page_index s0 + 1)%Z ->
        exists shops,
          extract_shops HTML html_text = Ok shops
          /\ loop_body server HTML NFKC chk clk a s0 w0
             = (Terminated, bump s0, write_shops shops w1))
  /\ (forall s0 w0 s1 w1,
        loop_body server HTML NFKC chk clk a s0 w0 = (Running, s1, w1) ->
        current_url s1 <> current_url s0
        /\ (page_index s1 = page_index s0 + 1)%Z
        /\ (page_index s1 < max_pages a)%Z)
  /\ (forall s0 w0 referer html_text w1 doc,
        turn_referer s0 = Some referer ->
        load_html server (current_url s0) (Some (cookies a)) (timeout a)
                  (Some referer) w0 = (Ok html_text, w1) ->
        HTML html_text = Ok (Some doc) ->
        get_next_page_url NFKC chk doc (current_url s0)
        = Ok (Some (current_url s0)) ->
        fst (fst (loop_body server HTML NFKC chk clk a s0 w0)) = Terminated).
Proof.
  cbv zeta.
  destruct (main server HTML NFKC chk clk a fuel) as [[st s] w] eqn:E.
  cbn [fst snd].
  destruct (main_inv _ _ _ _ _ _ _ _ _ _ E)
    as (Hpos & (shops & t & _ & Ht & Hg & _ & _) & Hbound).
  destruct (Hbound Hmax) as [Hle Hstop].
  split; [lia|]. split.
  { rewrite Ht. unfold count_gets in *. cbn [List.filter is_get]. exact Hg. }
  split; [exact Hstop|]. split; [|split; [|split]].
  - intros s0 w0 referer html_text w1 Href Hload Hceil.
    apply (loop_body_ceiling_turn _ _ _ _ _ _ _ _ _ _ _ Href Hload); lia.
  - intros s0 w0 referer html_text w1 o Href Hload Hparse Hceil.
    apply (loop_body_ceiling _ _ _ _ _ _ _ _ _ _ _ _ Href Hload Hparse); lia.
  - intros s0 w0 s1 w1 Hbody.
    destruct (loop_body_inv _ _ _ _ _ _ _ _ _ _ _ Hbody) as (Hidx & _ & Hrun).
    destruct (Hrun eq_refl) as (Hne & _ & _ & Hc).
    split; [exact Hne|]. split; [exact Hidx|]. lia.
  - intros s0 w0 referer html_text w1 doc Href Hload Hdoc Hnext.
    by apply (loop_body_self_link _ _ _ _ _ _ _ _ _ _ _ _ Href Hload Hdoc Hnext).
Qed.

Lemma crawl_respects_max_pages_witness :
  (0 < max_pages (TwoPages.run 1))%Z
  /\ fst (fst (main TwoPages.server TwoPages.HTML TwoPages.NFKC
                    TwoPages.bracketed_ok TwoPages.clock (TwoPages.run 1) 1))
     <> Running.
Proof.
  split; [reflexivity|].
  pose proof (crawl_respects_max_pages TwoPages.server TwoPages.HTML
                TwoPages.NFKC TwoPages.bracketed_ok TwoPages.clock (TwoPages.run 1) 1
                eq_refl) as H.
  cbv zeta in H. destruct H as (_ & _ & Hstop & _).
  apply Hstop. cbn. lia.
Defined.

(** With a ceiling of one page, the two-page site is left after its first
    page: two rows, one request. *)
Example main_one_page :
  let r := main TwoPages.server TwoPages.HTML TwoPages.NFKC
                TwoPages.bracketed_ok TwoPages.clock (TwoPages.run 1) 5 in
  fst (fst r) = Terminated
  /\ page_index (snd (fst r)) = 1%Z
  /\ length (file (snd r)) = 3%nat
  /\ nreq (snd r) = 1%nat.
Proof. vm_compute. repeat split. Qed.

(** ** URL resolution *)

Lemma bind_Ok {A B} (m : result A) (f : A -> result B) (y : B) :
  m ≫= f = Ok y -> exists x, m = Ok x /\ f x = Ok y.
Proof. destruct m as [x|e]; [by exists x | done]. Qed.

Ltac invert_result H :=
  repeat match type of H with
  | (_ ≫= _) = Ok _ =>
      let x := fresh "x" in let E := fresh "E" in
      apply bind_Ok in H as (x & E & H)
  | context [match ?x with _ => _ end] => destruct x eqn:?
  | context [if ?x then _ else _] => destruct x eqn:?
  end.

Section UrlFacts.
Variable NFKC : str -> str.
Variable chk : str -> result unit.

(** The scheme [urlsplit] reports is the one its scheme detection
    finds. *)
Lemma urlsplit_scheme (url d : str) (sr : Url.split_result) :
  Url.urlsplit NFKC chk url d = Ok sr ->
  Url.sr_scheme sr
  = fst (split_scheme
           (Url.remove_unsafe (lstrip_by Url.is_c0_or_space url))
           (Url.remove_unsafe
              (rstrip_by Url.is_c0_or_space (lstrip_by Url.is_c0_or_space d)))).
Proof.
  unfold Url.urlsplit, split_scheme.
  set (U := Url.remove_unsafe (lstrip_by Url.is_c0_or_space url)).
  set (D := Url.remove_unsafe _).
  set (P := match find_char Url.COLON U, U with
            | Some (S i' as i), c0 :: _ => _
            | _, _ => _
            end).
  destruct P as [sc u0]. cbn [fst].
  intros H. invert_result H; try discriminate H; injection H as <-; reflexivity.
Qed.

Lemma split_scheme_default (U d : str) :
  fst (split_scheme U []) <> [] -> split_scheme U d = split_scheme U [].
Proof.
  unfold split_scheme.
  destruct (find_char Url.COLON U) as [[|i]|]; destruct U as [|c0 U'];
    cbn [fst]; try done.
  destruct (is_ascii_alpha c0 && forallb Url.is_scheme_char (take (S i) (c0 :: U')));
    cbn [fst]; done.
Qed.

(** A URL with a scheme of its own parses the same whatever the default
    scheme. *)
Lemma urlsplit_default (url d : str) (sr : Url.split_result) :
  Url.urlsplit NFKC chk url [] = Ok sr -> Url.sr_scheme sr <> [] ->
  Url.urlsplit NFKC chk url d = Ok sr.
Proof.
  intros H Hne. rewrite (urlsplit_scheme _ _ _ H) in Hne.
  change (Url.remove_unsafe
            (rstrip_by Url.is_c0_or_space (lstrip_by Url.is_c0_or_space [])))
    with ([] : str) in Hne.
  rewrite <- H. unfold Url.urlsplit.
  set (U := Url.remove_unsafe (lstrip_by Url.is_c0_or_space url)) in *.
  set (D := Url.remove_unsafe
              (rstrip_by Url.is_c0_or_space (lstrip_by Url.is_c0_or_space d))).
  change (Url.remove_unsafe
            (rstrip_by Url.is_c0_or_space (lstrip_by Url.is_c0_or_space [])))
    with ([] : str).
  repeat match goal with
  | |- context [match ?P with (_, _) => _ end] =>
      lazymatch P with
      | context [find_char] =>
          first [ change P with (split_scheme U D)
                | change P with (split_scheme U []) ]
      end
  end.
  by rewrite (split_scheme_default U D Hne).
Qed.

Lemma urlparse_default (url d : str) (u : Url.parse_result) :
  Url.urlparse NFKC chk url [] = Ok u -> Url.scheme u <> [] ->
  Url.urlparse NFKC chk url d = Ok u.
Proof.
  unfold Url.urlparse. intros H Hne.
  apply bind_Ok in H as (sr & Hsr & H).
  rewrite (urlsplit_default url d sr Hsr).
  - exact H.
  - destruct (in_list (Url.sr_scheme sr) Url.uses_params
              && has_char Url.SEMI (Url.sr_path sr));
      [destruct (Url._splitparams (Url.sr_path sr))|];
      injection H as <-; exact Hne.
Qed.
End UrlFacts.

Lemma in_list_true (x : str) (l : list str) : in_list x l = true <-> In x l.
Proof.
  unfold in_list. rewrite existsb_exists. split.
  - intros (y & Hy & Heq). apply eqb_true in Heq. by subst.
  - intros H. exists x. split; [done | apply eqb_refl].
Qed.

(** Every scheme that takes relative references has a network location. *)
Lemma uses_relative_netloc (x : str) :
  in_list x Url.uses_relative = true -> in_list x Url.uses_netloc = true.
Proof.
  intros H. apply in_list_true in H.
  unfold Url.uses_relative in H. cbn [fmap list_fmap In] in H.
  repeat (destruct H as [<-|H]; [vm_compute; reflexivity|]). destruct H.
Qed.

Section Resolution.
Variable NFKC : str -> str.
Variable chk : str -> result unit.

(** [urljoin] on an absolute [url]: the URL itself, or its components
    put together again; the base only decides which. *)
Lemma urljoin_absolute (base url : str) (b u : Url.parse_result) :
  Url.urlparse NFKC chk base [] = Ok b ->
  is_absolute NFKC chk url u ->
  Url.urljoin NFKC chk base url
  = Ok (if is_empty base
           || negb (PyStr.eqb (Url.scheme u) (Url.scheme b))
           || negb (in_list (Url.scheme u) Url.uses_relative)
        then url else Url.urlunparse u).
Proof.
  intros Hb (Hu & Hsch & Hnet). unfold Url.urljoin.
  destruct (is_empty base); [reflexivity|]. cbn [orb].
  destruct (is_empty url) eqn:Hempty.
  { apply is_empty_true in Hempty. subst url. cbn in Hu.
    injection Hu as <-. done. }
  rewrite Hb. cbn [mbind result_bind].
  rewrite (urlparse_default NFKC chk url (Url.scheme b) u Hu Hsch).
  cbn [mbind result_bind].
  destruct (negb (PyStr.eqb (Url.scheme u) (Url.scheme b))); [reflexivity|].
  cbn [orb].
  destruct (in_list (Url.scheme u) Url.uses_relative) eqn:Hrel; [|reflexivity].
  cbn [negb]. rewrite (uses_relative_netloc _ Hrel).
  apply is_empty_false in Hnet. rewrite Hnet. reflexivity.
Qed.

(** The resolver hands the first next link to [urljoin]. *)
Lemma get_next_page_url_first (document : node) (current_url href : str)
      (rest : list str) :
  xp_next_hrefs document = href :: rest ->
  get_next_page_url NFKC chk document current_url
  = Some <$> Url.urljoin NFKC chk current_url href.
Proof. unfold get_next_page_url. by intros ->. Qed.
End Resolution.

(** C8, as stated, fails: an absolute link with an empty query mark, or with
    a capital in its scheme, does not come back unchanged from a base of the
    same scheme. *)
Lemma get_next_page_url_changes_absolute_href :
  ~ (forall NFKC chk document base href rest u,
       xp_next_hrefs document = href :: rest ->
       is_absolute NFKC chk href u ->
       get_next_page_url NFKC chk document base = Ok (Some href)).
Proof.
  intros H.
  assert (Hlink : xp_next_hrefs (link_page (lit "http://x.com/p?"))
                  = [lit "http://x.com/p?"])
    by (vm_compute; reflexivity).
  pose proof (H TwoPages.NFKC TwoPages.bracketed_ok
                (link_page (lit "http://x.com/p?")) (lit "http://y.com/")
                (lit "http://x.com/p?") []
                {| Url.scheme := lit "http"; Url.netloc := lit "x.com";
                   Url.path := lit "/p"; Url.params := []; Url.query := [];
                   Url.fragment := [] |}
                Hlink) as Hc.
  assert (Habs : is_absolute TwoPages.NFKC TwoPages.bracketed_ok
                   (lit "http://x.com/p?")
                   {| Url.scheme := lit "http"; Url.netloc := lit "x.com";
                      Url.path := lit "/p"; Url.params := []; Url.query := [];
                      Url.fragment := [] |}).
  { split; [vm_compute; reflexivity|]. split; discriminate. }
  specialize (Hc Habs). vm_compute in Hc. discriminate Hc.
Qed.

(** The two absolute links that change, as [urljoin] returns them. *)
Example urljoin_normalises :
  Url.urljoin TwoPages.NFKC TwoPages.bracketed_ok
              (lit "http://y.com/") (lit "http://x.com/p?")
  = Ok (lit "http://x.com/p")
  /\ Url.urljoin TwoPages.NFKC TwoPages.bracketed_ok
                 (lit "http://y.com/") (lit "HTTP://x.com/p")
     = Ok (lit "http://x.com/p")
  /\ Url.urljoin TwoPages.NFKC TwoPages.bracketed_ok
                 (lit "https://y.com/") (lit "http://x.com/p?")
     = Ok (lit "http://x.com/p?").
Proof. vm_compute. repeat split. Qed.

(** C8, amended.  For every base URL that parses and every next link that
    is already absolute (a scheme of its own and a network location), the
    resolver returns either the link unchanged or the link put together
    again from its parsed components; it is unchanged whenever its scheme
    differs from the base's, and whenever the link is already the
    serialisation of its own components; the base's location and path play
    no part. *)
Theorem get_next_page_url_absolute NFKC chk document base href rest b u
  (Hlink : xp_next_hrefs document = href :: rest)
  (Hbase : Url.urlparse NFKC chk base [] = Ok b)
  (Habs : is_absolute NFKC chk href u) :
  exists next,
    get_next_page_url NFKC chk document base = Ok (Some next)
    /\ (next = href \/ next = Url.urlunparse u)
    /\ (Url.scheme u <> Url.scheme b -> next = href)
    /\ (Url.urlunparse u = href -> next = href).
Proof.
  rewrite (get_next_page_url_first NFKC chk document base href rest Hlink).
  rewrite (urljoin_absolute NFKC chk base href b u Hbase Habs).
  eexists. split; [reflexivity|].
  destruct (is_empty base); cbn [orb]; [by repeat split; [left|..]|].
  destruct (PyStr.eqb (Url.scheme u) (Url.scheme b)) eqn:Hs; cbn [negb orb].
  - apply eqb_true in Hs.
    destruct (in_list (Url.scheme u) Url.uses_relative); cbn [negb].
    + split; [by right|]. split; [done | done].
    + split; [by left|]. split; done.
  - split; [by left|]. split; done.
Qed.

Lemma get_next_page_url_absolute_witness :
  exists next,
    get_next_page_url TwoPages.NFKC TwoPages.bracketed_ok
                      (link_page (lit "https://x.com/list?p=2#top"))
                      (lit "https://y.com/a/b")
    = Ok (Some next)
    /\ next = lit "https://x.com/list?p=2#top".
Proof.
  set (href := lit "https://x.com/list?p=2#top").
  set (b := {| Url.scheme := lit "https"; Url.netloc := lit "y.com";
               Url.path := lit "/a/b"; Url.params := []; Url.query := [];
               Url.fragment := [] |}).
  set (u := {| Url.scheme := lit "https"; Url.netloc := lit "x.com";
               Url.path := lit "/list"; Url.params := [];
               Url.query := lit "p=2"; Url.fragment := lit "top" |}).
  assert (Hlink : xp_next_hrefs (link_page href) = [href])
    by (vm_compute; reflexivity).
  assert (Hbase : Url.urlparse TwoPages.NFKC TwoPages.bracketed_ok
                    (lit "https://y.com/a/b") [] = Ok b)
    by (vm_compute; reflexivity).
  assert (Habs : is_absolute TwoPages.NFKC TwoPages.bracketed_ok href u)
    by (split; [vm_compute; reflexivity | split; discriminate]).
  destruct (get_next_page_url_absolute TwoPages.NFKC TwoPages.bracketed_ok
              (link_page href) (lit "https://y.com/a/b") href [] b u
              Hlink Hbase Habs)
    as (next & Hnext & _ & _ & Hsame).
  exists next. split; [exact Hnext|]. apply Hsame. vm_compute. reflexivity.
Defined.

(** * Further properties *)

(** ** The record extractor, as a whole *)

Lemma shop_of_li_record li : shop_of_li li = Ok (record_of li).
Proof.
  unfold record_of. destruct (xp_h4_text li) as [|t ts] eqn:Hn.
  - unfold shop_of_li. by rewrite Hn.
  - by apply (shop_of_li_heading li t ts).
Qed.

Lemma shops_loop_records lis : forall results,
  shops_loop lis results = Ok (results ++ omap record_of lis).
Proof.
  induction lis as [|li rest IH]; intros results; cbn [shops_loop omap list_omap].
  - by rewrite app_nil_r.
  - rewrite shop_of_li_record. cbn [mbind result_bind]. rewrite IH.
    destruct (record_of li) as [s|]; [|done].
    by rewrite <- app_assoc.
Qed.

Lemma record_of_well_formed li s : record_of li = Some s -> well_formed s.
Proof.
  unfold record_of, well_formed, trimmed.
  destruct (xp_h4_text li) as [|t ts]; [done|]. intros [= <-]. cbn.
  split; [apply strip_idemp|]. split.
  - destruct (xp_price_text li); [reflexivity | apply strip_idemp].
  - apply Forall_forall. intros d Hd. apply list_elem_of_In, filter_In in Hd.
    destruct Hd as [Hd Hne]. apply negb_true_iff, is_empty_false in Hne.
    split; [done|]. apply list_elem_of_In, list_elem_of_fmap in Hd.
    destruct Hd as (t' & -> & _). apply strip_idemp.
Qed.

(** X1. Every Record that [extract_shops] returns has a trimmed name, a
    trimmed price and dishes that are trimmed and non-empty. *)
Theorem extract_shops_well_formed (HTML : str -> result (option node))
  (html_text : str)
  (shops : list shop) (Hex : extract_shops HTML html_text = Ok shops) :
  Forall well_formed shops.
Proof.
  unfold extract_shops in Hex.
  destruct (HTML html_text) as [[document|]|e]; cbn [mbind result_bind] in Hex.
  - rewrite shops_loop_records in Hex. injection Hex as <-. cbn [app].
    apply Forall_forall. intros s Hs. apply list_elem_of_omap in Hs.
    destruct Hs as (li & _ & Hli). by apply (record_of_well_formed li).
  - injection Hex as <-. constructor.
  - discriminate Hex.
Qed.

Lemma extract_shops_well_formed_witness :
  extract_shops (fun _ => Ok (Some Samples.page1)) [] 
  = Ok [{| name := lit "Shop A"; avg_price := 165 :: lit "35";
           recommended_dishes := [lit "Dish1"; lit "Dish2"] |};
        {| name := lit "Shop B"; avg_price := []; recommended_dishes := [] |}]
  /\ Forall well_formed
       [{| name := lit "Shop A"; avg_price := 165 :: lit "35";
           recommended_dishes := [lit "Dish1"; lit "Dish2"] |};
        {| name := lit "Shop B"; avg_price := []; recommended_dishes := [] |}].
Proof.
  assert (H : extract_shops (fun _ => Ok (Some Samples.page1)) []
              = Ok [{| name := lit "Shop A"; avg_price := 165 :: lit "35";
                       recommended_dishes := [lit "Dish1"; lit "Dish2"] |};
                    {| name := lit "Shop B"; avg_price := [];
                       recommended_dishes := [] |}])
    by (vm_compute; reflexivity).
  split; [exact H|].
  exact (extract_shops_well_formed (fun _ => Ok (Some Samples.page1)) [] _ H).
Defined.

Lemma existsb_flat_map {A B} (p : B -> bool) (f : A -> list B) (l : list A) :
  existsb p (flat_map f l) = existsb (fun x => existsb p (f x)) l.
Proof.
  induction l as [|x l IH]; [done|]. cbn [flat_map existsb].
  by rewrite existsb_app, IH.
Qed.

Lemma existsb_ext_Forall {A} (f g : A -> bool) (l : list A) :
  Forall (fun x => f x = g x) l -> existsb f l = existsb g l.
Proof.
  induction 1 as [|x l Hx _ IH]; [done|]. cbn [existsb]. by rewrite Hx, IH.
Qed.

(** An element of the subtree satisfies [p] when the root does or an
    element strictly below it does. *)
Lemma existsb_elements p n :
  existsb (node_is p) (elements n) = node_is p n || has_inside p n.
Proof.
  induction n as [t0|tg0 a0 cs0 IH] using node_induction; [reflexivity|].
  cbn [elements existsb has_inside]. f_equal.
  rewrite existsb_flat_map. by apply existsb_ext_Forall.
Qed.

Lemma existsb_descendants p n :
  existsb (node_is p) (descendants n) = has_inside p n.
Proof.
  destruct n as [t0|tg0 a0 cs0]; [reflexivity|].
  unfold descendants. cbn [children_of has_inside].
  rewrite existsb_flat_map. apply existsb_ext_Forall, Forall_forall.
  intros c _. apply existsb_elements.
Qed.

(** The block query of [extract_shops] selects the candidate blocks of
    the description, in the same order. *)
Lemma xp_li_with_h4_described document :
  xp_li_with_h4 document = candidate_blocks document.
Proof.
  unfold xp_li_with_h4.
  induction document as [t0|tg0 a0 cs0 IH] using node_induction; [reflexivity|].
  cbn [elements List.filter candidate_blocks].
  rewrite existsb_descendants.
  assert (Hcs : List.filter
                  (fun e => node_is (has_tag (lit "li")) e
                            && existsb (node_is is_h4) (descendants e))
                  (flat_map elements cs0)
                = flat_map candidate_blocks cs0).
  { induction IH as [|c cs Hc _ IHcs]; [done|].
    cbn [flat_map]. by rewrite List.filter_app, Hc, IHcs. }
  rewrite Hcs.
  by destruct (node_is (has_tag (lit "li")) (Elem tg0 a0 cs0)
               && has_inside is_h4 (Elem tg0 a0 cs0)).
Qed.

(** X2. The Records come one per candidate block with heading text, in
    document order.  Walking the page from the root, an [li] with a
    heading inside is a candidate block and comes before the candidate
    blocks found inside it, which come before those of its later siblings;
    the names returned are the trimmed first heading texts of the
    candidate blocks that have one, in that order. *)
Theorem extract_shops_document_order (HTML : str -> result (option node))
  (html_text : str)
  (document : node) (Hdoc : HTML html_text = Ok (Some document)) :
  exists shops,
    extract_shops HTML html_text = Ok shops
    /\ name <$> shops
       = omap (fun li => strip <$> head (heading_texts li))
              (candidate_blocks document).
Proof.
  unfold extract_shops. rewrite Hdoc. cbn [mbind result_bind].
  rewrite shops_loop_records. cbn [app].
  eexists. split; [reflexivity|].
  rewrite xp_li_with_h4_described.
  induction (candidate_blocks document) as [|li lis IH]; [done|].
  cbn [omap list_omap]. unfold record_of at 1.
  rewrite <- xp_h4_text_described.
  destruct (xp_h4_text li) as [|t ts] eqn:Hn; cbn [head fmap option_fmap option_map];
    [exact IH|].
  rewrite fmap_cons. cbn [name]. f_equal. exact IH.
Qed.

Lemma extract_shops_document_order_witness :
  exists shops,
    extract_shops (fun _ => Ok (Some Samples.page1)) [] = Ok shops
    /\ name <$> shops = [lit "Shop A"; lit "Shop B"].
Proof.
  destruct (extract_shops_document_order (fun _ => Ok (Some Samples.page1)) []
              Samples.page1 eq_refl) as (shops & Hs & Hn).
  exists shops. split; [exact Hs|]. rewrite Hn. vm_compute. reflexivity.
Defined.

(** ** The cookie parser, segment by segment *)

Lemma before_first_id c s : has_char c s = false -> before_first c s = s.
Proof.
  induction s as [|x s IH]; cbn [before_first has_char existsb]; [done|].
  rewrite (N.eqb_sym c x). destruct (x =? c); cbn [orb]; [done|].
  intros H. f_equal. by apply IH.
Qed.

Lemma split_app c s t : split c (s ++ c :: t) = split c s ++ split c t.
Proof.
  induction s as [|x s IH]; cbn [app split].
  - by rewrite N.eqb_refl.
  - destruct (x =? c); [by rewrite IH|].
    rewrite IH, (split_shape c s). reflexivity.
Qed.

Lemma split_single c seg : has_char c seg = false -> split c seg = [seg].
Proof. intros H. by rewrite split_shape, H, before_first_id. Qed.

(** X3. Appending one more segment to a cookie string adds its binding on
    top of the cookies parsed so far, replacing an earlier cookie of the
    same key; a segment without ['='] changes nothing. *)
Theorem format_cookies_append (cookies_str seg : str)
  (Hseg : has_char Cookies.SEMI seg = false) :
  _format_cookies (cookies_str ++ Cookies.SEMI :: seg)
  = (fun d => if has_char EQUALS seg
              then <[fst (cookie_of_segment seg) := snd (cookie_of_segment seg)]> d
              else d)
      <$> _format_cookies cookies_str.
Proof.
  unfold _format_cookies. rewrite !cookies_loop_described.
  rewrite split_app, (split_single _ _ Hseg), List.filter_app, fmap_app, fold_left_app.
  cbn [fmap result_fmap List.filter].
  destruct (has_char EQUALS seg); reflexivity.
Qed.

Lemma format_cookies_append_witness :
  _format_cookies (lit "a=1; b=2" ++ Cookies.SEMI :: lit "a=3")
  = Ok (<[lit "a" := lit "3"]> (<[lit "b" := lit "2"]> (<[lit "a" := lit "1"]> ∅))).
Proof.
  rewrite (format_cookies_append (lit "a=1; b=2") (lit "a=3") eq_refl).
  vm_compute. reflexivity.
Defined.

Lemma in_lstrip_by p x s : In x (lstrip_by p s) -> In x s.
Proof.
  destruct (lstrip_by_split p s) as (pre & Hs & _). intros H.
  rewrite Hs. apply in_or_app. by right.
Qed.

Lemma in_strip x s : In x (strip s) -> In x s.
Proof.
  unfold strip. intros H.
  destruct (rstrip_by_split is_space (lstrip_by is_space s)) as (post & Hs & _).
  apply (in_lstrip_by is_space). rewrite Hs. apply in_or_app. by left.
Qed.

Lemma in_before_first c x s : In x (before_first c s) -> In x s /\ x <> c.
Proof.
  induction s as [|y s IH]; cbn [before_first]; [done|].
  destruct (y =? c) eqn:Hy; [done|]. apply N.eqb_neq in Hy.
  intros [<-|H]; [split; [by left | done]|].
  destruct (IH H). split; [by right | done].
Qed.

Lemma in_after_first c x s : In x (after_first c s) -> In x s.
Proof.
  induction s as [|y s IH]; cbn [after_first]; [done|].
  destruct (y =? c); intros H; right; [done | by apply IH].
Qed.

Lemma in_split c seg s : In seg (split c s) -> ~ In c seg.
Proof.
  revert seg. induction s as [|x s IH]; intros seg; cbn [split].
  - intros [<-|[]]. by intros [].
  - destruct (x =? c) eqn:Hx.
    + intros [<-|H]; [by intros [] | by apply IH].
    + apply N.eqb_neq in Hx. rewrite (split_shape c s) in *.
      intros [<-|H].
      * intros [->|Hc]; [done|]. by apply in_before_first in Hc as [_ ?].
      * apply IH. by right.
Qed.

(** X4. In the dict [_format_cookies] returns, every key and every value is
    trimmed and free of [';'] and ['=']. *)
Theorem format_cookies_entries_clean (cookies_str : str) (d : gmap str str)
  (k v : str) (Hd : _format_cookies cookies_str = Ok d) (Hkv : d !! k = Some v) :
  trimmed k /\ trimmed v
  /\ ~ In Cookies.SEMI k /\ ~ In EQUALS k
  /\ ~ In Cookies.SEMI v /\ ~ In EQUALS v.
Proof.
  unfold _format_cookies in Hd. rewrite cookies_loop_described in Hd.
  injection Hd as <-.
  set (P := fun (k v : str) =>
              trimmed k /\ trimmed v /\ ~ In Cookies.SEMI k /\ ~ In EQUALS k
              /\ ~ In Cookies.SEMI v /\ ~ In EQUALS v).
  assert (Hall : forall segs (d0 : gmap str str),
             (forall seg, In seg segs -> ~ In Cookies.SEMI seg) ->
             map_Forall P d0 ->
             map_Forall P
               (fold_left (fun d kv => <[fst kv := snd kv]> d)
                          (cookie_of_segment <$> List.filter (has_char EQUALS) segs)
                          d0)).
  { induction segs as [|seg segs IH]; intros d0 Hsegs Hd0; [exact Hd0|].
    cbn [List.filter]. destruct (has_char EQUALS seg).
    - rewrite fmap_cons. cbn [fold_left]. apply IH.
      + intros s Hs. apply Hsegs. by right.
      + apply map_Forall_insert_2; [|exact Hd0].
        assert (Hseg : ~ In Cookies.SEMI seg) by (apply Hsegs; by left).
        unfold P, cookie_of_segment, trimmed. cbn [fst snd].
        split; [apply strip_idemp|]. split; [apply strip_idemp|].
        repeat split; intros Hin; apply in_strip, in_before_first in Hin
          as [Hin Hne]; try done.
        * apply in_after_first in Hin. done.
    - apply IH; [|exact Hd0]. intros s Hs. apply Hsegs. by right. }
  apply (Hall (split Cookies.SEMI cookies_str) ∅).
  - intros seg Hseg. by apply (in_split _ _ cookies_str).
  - apply map_Forall_empty.
  - exact Hkv.
Qed.

Lemma format_cookies_entries_clean_witness :
  trimmed (lit "b") /\ trimmed (lit "2")
  /\ ~ In Cookies.SEMI (lit "b") /\ ~ In EQUALS (lit "b")
  /\ ~ In Cookies.SEMI (lit "2") /\ ~ In EQUALS (lit "2").
Proof.
  apply (format_cookies_entries_clean (lit " a=1 ; b = 2=x")
           (<[lit "b" := lit "2"]> (<[lit "a" := lit "1"]> ∅)) (lit "b") (lit "2")).
  - vm_compute. reflexivity.
  - vm_compute. reflexivity.
Defined.

(** ** The page fetcher and network failures *)

(** X5. An exception raised by the request itself (a timeout, a refused
    connection) is not retried: at whichever attempt it happens, the fetch
    ends there with that exception, without a further sleep or request. *)
Theorem load_html_network_error_final server url cookies timeout referer w descr
  (Hurl : valid_url url = true) :
  let rq := fetch_request url cookies timeout referer in
  let r0 := server (nreq w) rq in
  let r1 := server (S (nreq w)) rq in
  let r2 := server (S (S (nreq w))) rq in
  let out := load_html server url cookies timeout referer w in
  (r0 = NetFail descr ->
   out = (Raise (RequestException descr), advance w 1 [EvGet rq]))
  /\ (failed r0 = true -> r1 = NetFail descr ->
      out = (Raise (RequestException descr),
             advance w 2 [EvGet rq; EvSleep (3 # 2); EvGet rq]))
  /\ (failed r0 = true -> failed r1 = true -> r2 = NetFail descr ->
      out = (Raise (RequestException descr), advance w 3 (retry_schedule rq))).
Proof.
  cbv zeta. rewrite load_html_unfold, Hurl. unfold attempts_outcome.
  set (rq := fetch_request url cookies timeout referer).
  repeat split.
  - by intros ->.
  - intros Hf0 Hr1. destruct (server (nreq w) rq) as [s0 b0|d0]; [|done].
    by rewrite Hf0, Hr1.
  - intros Hf0 Hf1 Hr2. destruct (server (nreq w) rq) as [s0 b0|d0]; [|done].
    rewrite Hf0. cbn [negb].
    destruct (server (S (nreq w)) rq) as [s1 b1|d1]; [|done].
    by rewrite Hf1, Hr2.
Qed.

Lemma load_html_network_error_final_witness :
  load_html (fun _ _ => NetFail (lit "timed out")) Sites.seed_url None 60 None
            Sites.start
  = (Raise (RequestException (lit "timed out")),
     advance Sites.start 1 [EvGet (fetch_request Sites.seed_url None 60 None)]).
Proof.
  pose proof (load_html_network_error_final (fun _ _ => NetFail (lit "timed out"))
                Sites.seed_url None 60%Z None Sites.start (lit "timed out")
                eq_refl) as H.
  cbv zeta in H. destruct H as (H0 & _). apply H0. reflexivity.
Defined.

(** ** The requests of a crawl *)

Lemma gets_app t1 t2 : gets (t1 ++ t2) = gets t1 ++ gets t2.
Proof. unfold gets. apply flat_map_app. Qed.

Lemma gets_writes (shops : list shop) :
  gets ((fun s => EvWrite (shop_row s)) <$> shops) = [].
Proof. induction shops as [|s shops IH]; [done | exact IH]. Qed.

Lemma gets_write_shops shops w : gets (trace (write_shops shops w)) = gets (trace w).
Proof.
  rewrite write_shops_unfold. cbn [trace].
  by rewrite gets_app, gets_writes, app_nil_r.
Qed.

(** The requests of one fetch: the same request, once per attempt. *)
Lemma load_html_requests server url cookies timeout referer w :
  exists n t,
    snd (load_html server url cookies timeout referer w) = advance w n t
    /\ gets t = replicate n (fetch_request url cookies timeout referer)
    /\ (forall text,
          fst (load_html server url cookies timeout referer w) = Ok text ->
          (1 <= n)%nat).
Proof.
  rewrite load_html_unfold. destruct (valid_url url).
  - unfold attempts_outcome.
    set (rq := fetch_request url cookies timeout referer).
    destruct (server (nreq w) rq) as [s0 b0|d0];
      [destruct (failed (HttpResp s0 b0));
       [destruct (server (S (nreq w)) rq) as [s1 b1|d1];
        [destruct (failed (HttpResp s1 b1));
         [destruct (server (S (S (nreq w))) rq) as [s2 b2|d2];
          [destruct (failed (HttpResp s2 b2))|]|]|]|]|];
    cbn [negb fst snd];
    eexists _, _; (split; [reflexivity|]); (split; [reflexivity|]);
    intros; lia.
  - exists 0%nat, []. cbn [fst snd]. split; [|split; [done | done]].
    unfold advance. destruct w. cbn. by rewrite app_nil_r.
Qed.

(** The requests of one turn of the loop. *)
Lemma loop_body_requests server HTML NFKC chk clk a s w st s' w' :
  loop_body server HTML NFKC chk clk a s w = (st, s', w') ->
  exists n,
    gets (trace w') = gets (trace w) ++ replicate n (turn_request a s)
    /\ (st = Running -> (1 <= n)%nat).
Proof.
  unfold loop_body, turn_request. cbn [page_index current_url prev_url].
  remember (if (page_index s + 1 =? 1)%Z then Ok DEFAULT_REFERER
            else match prev_url s with
                 | Some p => Ok p
                 | None => Raise UnboundLocalError
                 end) as R eqn:ER.
  destruct R as [referer|e].
  2:{ intros [= <- <- <-]. exists 0%nat. by rewrite app_nil_r. }
  assert (Href : turn_referer s = Some referer).
  { unfold turn_referer. destruct (page_index s + 1 =? 1)%Z; [congruence|].
    destruct (prev_url s); congruence. }
  rewrite Href. clear ER.
  destruct (load_html server (current_url s) (Some (cookies a)) (timeout a)
                      (Some referer) w) as [res w1] eqn:EL.
  destruct (load_html_requests server (current_url s) (Some (cookies a))
              (timeout a) (Some referer) w) as (n & t & Hw1 & Hg & Hok).
  rewrite EL in Hw1, Hok. cbn [fst snd] in Hw1, Hok.
  assert (Hfin : forall st0 s0 w0,
            gets (trace w0) = gets (trace w1) ->
            (st0 = Running -> exists text, res = Ok text) ->
            (st0, s0, w0) = (st, s', w') ->
            exists n,
              gets (trace w') = gets (trace w)
                                ++ replicate n (fetch_request (current_url s)
                                     (Some (cookies a)) (timeout a) (Some referer))
              /\ (st = Running -> (1 <= n)%nat)).
  { intros st0 s0 w0 Hgets Hrun [= <- <- <-]. exists n. split.
    - rewrite Hgets, Hw1. cbn [advance trace]. by rewrite gets_app, Hg.
    - intros Hst. destruct (Hrun Hst) as [text ->]. by apply (Hok text). }
  destruct res as [html_text|e].
  2:{ intros H. refine (Hfin _ _ _ eq_refl _ H). intros [=]. }
  assert (Hfin' : forall st0 s0 w0,
            gets (trace w0) = gets (trace w1) ->
            (st0, s0, w0) = (st, s', w') ->
            exists n,
              gets (trace w') = gets (trace w)
                                ++ replicate n (fetch_request (current_url s)
                                     (Some (cookies a)) (timeout a) (Some referer))
              /\ (st = Running -> (1 <= n)%nat)).
  { intros st0 s0 w0 Hgets H. apply (Hfin st0 s0 w0 Hgets); [|exact H].
    intros _. by exists html_text. }
  clear Hfin. unfold time_sleep.
  repeat match goal with
  | |- context [sleep a] => destruct (sleep a) as [q| | |]; cbn [gt0]
  | |- context [clk ?q] => destruct (clk q)
  | |- context [Qle_bool 0 ?q] => destruct (Qle_bool 0 q); cbn [negb]
  | |- context [match ?x with _ => _ end] => destruct x
  | |- context [if ?x then _ else _] => destruct x
  end;
  intros H; apply (fun Hg => Hfin' _ _ _ Hg H);
  unfold do_sleep; cbn [trace]; rewrite ?gets_app, ?gets_write_shops;
  cbn [gets flat_map]; by rewrite ?app_nil_r.
Qed.

Lemma chain_ok_replicate n r : chain_ok (replicate n r).
Proof.
  induction n as [|n IH]; [done|]. destruct n as [|n]; [done|].
  cbn [replicate chain_ok] in *. split; [by left | exact IH].
Qed.

Lemma chain_ok_app l1 l2 :
  chain_ok l1 -> chain_ok l2 ->
  (forall r1 r2, last l1 = Some r1 -> head l2 = Some r2 -> chain_step r1 r2) ->
  chain_ok (l1 ++ l2).
Proof.
  induction l1 as [|r l1 IH]; intros H1 H2 Hb; [exact H2|].
  destruct l1 as [|r' l1].
  - destruct l2 as [|r2 l2]; [done|]. cbn [app chain_ok]. split; [|exact H2].
    by apply Hb.
  - cbn [app chain_ok] in *. destruct H1 as [Hs H1]. split; [exact Hs|].
    apply IH; [exact H1 | exact H2 | exact Hb].
Qed.

Lemma turn_request_referer a s p :
  page_index s <> 0%Z -> prev_url s = Some p -> p <> [] ->
  req_referer (turn_request a s) = p.
Proof.
  intros Hidx Hp Hne. unfold turn_request, fetch_request, turn_referer.
  cbn [req_referer].
  destruct (page_index s + 1 =? 1)%Z eqn:E; [apply Z.eqb_eq in E; lia|].
  rewrite Hp. apply is_empty_false in Hne. by rewrite Hne.
Qed.

(** The requests of a run of the loop that starts in a sound session. *)
Lemma crawl_requests server HTML NFKC chk clk a fuel : forall s w st s' w',
  session_ok s ->
  crawl server HTML NFKC chk clk a fuel s w = (st, s', w') ->
  exists new,
    gets (trace w') = gets (trace w) ++ new
    /\ chain_ok new
    /\ (forall r, head new = Some r -> r = turn_request a s).
Proof.
  induction fuel as [|fuel IH]; intros s w st s' w' Hs; cbn [crawl].
  - destruct (is_empty (current_url s)); intros [= <- <- <-];
      exists []; rewrite app_nil_r; repeat split; done.
  - destruct (is_empty (current_url s)) eqn:Hcur.
    { intros [= <- <- <-]. exists []. rewrite app_nil_r. repeat split; done. }
    apply is_empty_false in Hcur.
    destruct (loop_body server HTML NFKC chk clk a s w) as [[st1 s1] w1] eqn:EB.
    destruct (loop_body_requests _ _ _ _ _ _ _ _ _ _ _ EB) as (n & Hg1 & Hn).
    destruct (loop_body_inv _ _ _ _ _ _ _ _ _ _ _ EB) as (Hidx & _ & Hrun).
    assert (Hhead : forall l r, head (replicate n (turn_request a s) ++ l) = Some r ->
                      (1 <= n)%nat -> r = turn_request a s).
    { intros l r Hr Hle. destruct n as [|n]; [lia|]. cbn in Hr. congruence. }
    assert (Hstop : (st1, s1, w1) = (st, s', w') ->
              exists new,
                gets (trace w') = gets (trace w) ++ new
                /\ chain_ok new
                /\ (forall r, head new = Some r -> r = turn_request a s)).
    { intros [= <- <- <-]. exists (replicate n (turn_request a s)).
      split; [exact Hg1|]. split; [apply chain_ok_replicate|].
      intros r Hr. destruct n as [|n]; [done|]. cbn in Hr. congruence. }
    destruct st1; [|exact Hstop|exact Hstop]. clear Hstop.
    destruct (Hrun eq_refl) as (Hne & Hnonempty & Hprev & _).
    specialize (Hn eq_refl).
    assert (Hs1 : session_ok s1).
    { destruct Hs as [Hpos _]. split; [lia|]. right. by exists (current_url s). }
    intros Hc. destruct (IH _ _ _ _ _ Hs1 Hc) as (new & Hg2 & Hchain & Hfirst).
    exists (replicate n (turn_request a s) ++ new).
    split; [by rewrite Hg2, Hg1, app_assoc|]. split.
    + apply chain_ok_app; [apply chain_ok_replicate | exact Hchain|].
      intros r1 r2 Hr1 Hr2. rewrite (Hfirst r2 Hr2).
      assert (r1 = turn_request a s) as ->.
      { apply last_Some in Hr1 as [l' Hl'].
        assert (Hin : r1 ∈ replicate n (turn_request a s)).
        { rewrite Hl'. apply elem_of_app. right. by apply list_elem_of_singleton. }
        by apply elem_of_replicate in Hin as [? _]. }
      right. split.
      * exact Hne.
      * destruct Hs as [Hpos _].
        apply (turn_request_referer a s1 (current_url s)); [lia | done | done].
    + intros r Hr. by apply (Hhead new r Hr).
Qed.

Lemma session_ok_init (u : str) :
  session_ok {| current_url := u; prev_url := None; page_index := 0 |}.
Proof. split; [cbn; lia | by left]. Qed.

(** X6. Referer chaining: in every run, the first request asks for the
    seed URL with the site root as referer, and each later request either
    repeats the one before it (a retry) or asks for a different page and
    names as referer the URL of the page asked for just before. *)
Theorem main_referer_chain server HTML NFKC chk clk a fuel :
  let w := snd (main server HTML NFKC chk clk a fuel) in
  chain_ok (gets (trace w))
  /\ (forall r, head (gets (trace w)) = Some r ->
        req_url r = url a /\ req_referer r = DEFAULT_REFERER).
Proof.
  cbv zeta. unfold main.
  destruct (crawl _ _ _ _ _ _ _ _ _) as [[st s] w] eqn:E. cbn [snd].
  destruct (crawl_requests _ _ _ _ _ _ _ _ _ _ _ _ (session_ok_init (url a)) E)
    as (new & Hg & Hchain & Hfirst).
  cbn in Hg. rewrite Hg. split; [exact Hchain|].
  intros r Hr. rewrite (Hfirst r Hr). split; reflexivity.
Qed.

Lemma main_referer_chain_witness :
  chain_ok (gets (trace (snd (main TwoPages.server TwoPages.HTML TwoPages.NFKC
                                   TwoPages.bracketed_ok TwoPages.clock (TwoPages.run 0) 5)))).
Proof.
  pose proof (main_referer_chain TwoPages.server TwoPages.HTML TwoPages.NFKC
                TwoPages.bracketed_ok TwoPages.clock (TwoPages.run 0) 5) as H.
  cbv zeta in H. destruct H as [H _]. exact H.
Defined.

(** ** The exceptions a crawl can end with *)

Lemma bind_Raise {A B} (m : result A) (f : A -> result B) (e : pyerr) :
  m ≫= f = Raise e -> m = Raise e \/ exists x, m = Ok x /\ f x = Raise e.
Proof.
  intros H. destruct m as [x|e0]; [right; by exists x | left].
  cbn in H. by injection H as ->.
Qed.

Lemma fmap_Raise {A B} (m : result A) (f : A -> B) (e : pyerr) :
  f <$> m = Raise e -> m = Raise e.
Proof.
  intros H. destruct m as [x|e0]; [discriminate H|].
  cbn in H. by injection H as ->.
Qed.

Lemma split_nonempty c s : split c s <> [].
Proof. by rewrite split_shape. Qed.

Lemma getlast_ok {A} (l : list A) : l <> [] -> exists x, Url.getlast l = Ok x.
Proof.
  intros Hl. unfold Url.getlast. destruct (last l) as [x|] eqn:E; [by exists x|].
  by apply last_None in E.
Qed.

Lemma squeeze_inner_nonempty l : l <> [] -> Url.squeeze_inner l <> [].
Proof.
  destruct l as [|x l]; [done|]. intros _. cbn [Url.squeeze_inner].
  by destruct (last l).
Qed.

Section ResolutionErrors.
Variable NFKC : str -> str.
Variable chk : str -> result unit.

Lemma checknetloc_raises netloc e :
  Url._checknetloc NFKC netloc = Raise e -> exists msg, e = ValueError msg.
Proof.
  unfold Url._checknetloc. intros H.
  repeat match type of H with
  | context [if ?x then _ else _] => destruct x
  end; try discriminate H. injection H as <-. by eexists.
Qed.

Lemma check_bracketed_netloc_raises netloc e :
  Url._check_bracketed_netloc chk netloc = Raise e -> resolution_failure chk e.
Proof.
  unfold Url._check_bracketed_netloc. intros H.
  repeat match type of H with
  | context [match ?x with _ => _ end] => destruct x
  | context [if ?x then _ else _] => destruct x
  end; try discriminate H;
  first [ right; eexists; exact H | left; injection H as <-; by eexists ].
Qed.

Lemma urlsplit_raises url d e :
  Url.urlsplit NFKC chk url d = Raise e -> resolution_failure chk e.
Proof.
  unfold Url.urlsplit.
  set (P := match find_char Url.COLON _, _ with
            | Some (S i' as i), c0 :: _ => _
            | _, _ => _
            end).
  destruct P as [sc u0]. intros H.
  apply bind_Raise in H as [H|((netloc & u1) & _ & H)].
  - destruct (PyStr.eqb (take 2 u0) [Url.SLASH; Url.SLASH]); [|done].
    destruct (Url._splitnetloc u0 2) as [netloc u1].
    destruct (_ || _); [injection H as <-; left; by eexists|].
    apply bind_Raise in H as [H|(? & _ & H)]; [|done].
    destruct (_ && _); [|done]. by apply check_bracketed_netloc_raises in H.
  - destruct (if has_char Url.HASH u1 then _ else _) as [u2 fragment].
    destruct (if has_char Url.QMARK u2 then _ else _) as [u3 query].
    apply bind_Raise in H as [H|(? & _ & H)]; [|done].
    left. by apply checknetloc_raises in H.
Qed.

Lemma urlparse_raises url d e :
  Url.urlparse NFKC chk url d = Raise e -> resolution_failure chk e.
Proof.
  unfold Url.urlparse. intros H.
  apply bind_Raise in H as [H|(sr & _ & H)]; [by apply urlsplit_raises in H|].
  destruct (_ && _); [destruct (Url._splitparams _)|]; done.
Qed.

(** [urljoin] raises nothing of its own but [ValueError]: its two
    look-ups of a last list element are always on non-empty lists. *)
Lemma urljoin_raises base url e :
  Url.urljoin NFKC chk base url = Raise e -> resolution_failure chk e.
Proof.
  unfold Url.urljoin. intros H.
  destruct (is_empty base); [done|]. destruct (is_empty url); [done|].
  apply bind_Raise in H as [H|(b & _ & H)]; [by apply urlparse_raises in H|].
  apply bind_Raise in H as [H|(u & _ & H)]; [by apply urlparse_raises in H|].
  destruct (_ || _); [done|]. destruct (_ && _); [done|].
  destruct (is_empty (Url.path u) && is_empty (Url.params u)); [done|].
  destruct (getlast_ok (split Url.SLASH (Url.path b)) (split_nonempty _ _))
    as [final Hfinal].
  rewrite Hfinal in H. cbn [mbind result_bind] in H.
  match type of H with
  | context [Url.getlast ?segs] =>
      assert (Hsegs : segs <> []);
      [| destruct (getlast_ok segs Hsegs) as [fs Hfs]; rewrite Hfs in H;
         cbn [mbind result_bind] in H; discriminate H]
  end.
  destruct (PyStr.eqb (take 1 (Url.path u)) [Url.SLASH]);
    [apply split_nonempty|].
  apply squeeze_inner_nonempty. intros Happ.
  apply app_eq_nil in Happ as [_ Happ]. by apply split_nonempty in Happ.
Qed.

Lemma get_next_page_url_raises document current_url e :
  get_next_page_url NFKC chk document current_url = Raise e ->
  resolution_failure chk e.
Proof.
  unfold get_next_page_url. destruct (xp_next_hrefs document) as [|href rest];
    [done|].
  cbn [getitem nth_error mbind result_bind]. intros H.
  apply fmap_Raise in H. by apply urljoin_raises in H.
Qed.
End ResolutionErrors.

(** The exceptions of one fetch. *)
Lemma load_html_raises server url cookies timeout referer w e w' :
  load_html server url cookies timeout referer w = (Raise e, w') ->
  expected_failure e.
Proof.
  rewrite load_html_unfold. destruct (valid_url url); [|by intros [= <- _]].
  unfold attempts_outcome.
  set (rq := fetch_request url cookies timeout referer).
  destruct (server (nreq w) rq) as [s0 b0|d0]; [|by intros [= <- _]].
  destruct (failed (HttpResp s0 b0)); [|done]. cbn [negb].
  destruct (server (S (nreq w)) rq) as [s1 b1|d1]; [|by intros [= <- _]].
  destruct (failed (HttpResp s1 b1)); [|done]. cbn [negb].
  destruct (server (S (S (nreq w))) rq) as [s2 b2|d2]; [|by intros [= <- _]].
  destruct (failed (HttpResp s2 b2)); [|done]. cbn [negb].
  intros [= <- _]. unfold last_error.
  destruct (s2 =? 200)%Z eqn:E; [reflexivity|]. cbn. by apply Z.eqb_neq.
Qed.

(** The exceptions of [time.sleep] on a positive duration. *)
Lemma time_sleep_raises clk x w e :
  gt0 x = true -> time_sleep clk x w = Raise e ->
  e = OverflowError \/ exists q, clk q = Some e.
Proof.
  destruct x as [q| | |]; cbn [gt0 time_sleep]; [|by left; congruence|done|done].
  intros Hpos. destruct (clk q) as [e0|] eqn:Hq.
  - intros [= <-]. right. by exists q.
  - destruct (negb (Qle_bool 0 q)) eqn:Hneg; [|done].
    apply negb_true_iff in Hpos, Hneg.
    assert (Hle : (0 <= q)%Q).
    { destruct (Qlt_le_dec q 0) as [Hlt|Hle]; [|exact Hle].
      apply Qlt_le_weak, Qle_bool_iff in Hlt. congruence. }
    apply Qle_bool_iff in Hle. congruence.
Qed.

Section FailureModes.
Variable server : nat -> request -> response.
Variable HTML : str -> result (option node).
Variable NFKC : str -> str.
Variable chk : str -> result unit.
Variable clk : Q -> option pyerr.
Variable a : args.

Lemma loop_body_failure s w e s' w' :
  session_ok s ->
  loop_body server HTML NFKC chk clk a s w = (Failed e, s', w') ->
  expected_failure e \/ library_failure HTML chk clk e.
Proof.
  intros [Hpos Hprev]. unfold loop_body. cbn [page_index current_url prev_url].
  assert (Href : exists referer,
             (if (page_index s + 1 =? 1)%Z then Ok DEFAULT_REFERER
              else match prev_url s with
                   | Some p => Ok p
                   | None => Raise UnboundLocalError
                   end) = Ok referer).
  { destruct (page_index s + 1 =? 1)%Z eqn:E; [by eexists|].
    apply Z.eqb_neq in E. destruct Hprev as [?|(p & -> & _)]; [lia | by eexists]. }
  destruct Href as [referer ->].
  destruct (load_html server (current_url s) (Some (cookies a)) (timeout a)
                      (Some referer) w) as [[html_text|e0] w1] eqn:EL.
  2:{ intros [= <- _ _]. left. by apply load_html_raises in EL. }
  destruct (load_html_ok _ _ _ _ _ _ _ _ EL) as [-> _].
  destruct (extract_shops HTML html_text) as [shops|e0] eqn:EX.
  2:{ intros [= <- _ _]. right. left. exists html_text.
      by apply extract_shops_raise. }
  destruct (_ && _); [done|].
  destruct (HTML html_text) as [[doc|]|e0] eqn:EH; [|done|].
  2:{ intros [= <- _ _]. right. left. by exists html_text. }
  destruct (get_next_page_url NFKC chk doc (current_url s))
    as [[next_url|]|e0] eqn:EN.
  - destruct (_ || _); [done|].
    destruct (gt0 (sleep a)) eqn:Hpos'; [|done].
    destruct (time_sleep clk (sleep a) (write_shops shops w1)) as [w2|e0] eqn:ES;
      [done|].
    intros [= <- _ _].
    destruct (time_sleep_raises _ _ _ _ Hpos' ES) as [->|Hq].
    + by left.
    + right. right. by right.
  - done.
  - intros [= <- _ _].
    destruct (get_next_page_url_raises NFKC chk _ _ _ EN) as [[msg ->]|Hhost].
    + by left.
    + right. right. by left.
Qed.

Lemma crawl_failure fuel : forall s w e s' w',
  session_ok s ->
  crawl server HTML NFKC chk clk a fuel s w = (Failed e, s', w') ->
  expected_failure e \/ library_failure HTML chk clk e.
Proof.
  induction fuel as [|fuel IH]; intros s w e s' w' Hs; cbn [crawl].
  - by destruct (is_empty (current_url s)).
  - destruct (is_empty (current_url s)) eqn:Hcur; [done|].
    apply is_empty_false in Hcur.
    destruct (loop_body server HTML NFKC chk clk a s w) as [[st1 s1] w1] eqn:EB.
    destruct st1 as [| |e1].
    + destruct (loop_body_inv _ _ _ _ _ _ _ _ _ _ _ EB) as (Hidx & _ & Hrun).
      destruct (Hrun eq_refl) as (_ & _ & Hprev & _).
      apply IH. destruct Hs as [Hpos _]. split; [lia|].
      right. by exists (current_url s).
    + done.
    + intros [= <- _ _]. by apply (loop_body_failure s w e1 s1 w1 Hs).
Qed.
End FailureModes.

(** X8. When a crawl fails, the exception it lets out is one of: a
    [ValueError] (a URL that is not http(s), or that cannot be parsed), the
    credential rejection raised after a challenge page, an HTTP error whose
    status is not 200, the exception of a failed request, the
    [OverflowError] of an infinite [--sleep]; or else it is an exception
    that one of the three library calls left open raises: the parser on
    some page text, the bracketed-host check of the URL parser on some
    host, [time.sleep] on some finite duration.  In particular the
    extractor's and the resolver's own list look-ups never raise,
    [prev_url] is never read unbound, and the challenge test inside the
    loop never fires. *)
Theorem main_failure_modes server HTML NFKC chk clk a fuel e
  (Hfail : fst (fst (main server HTML NFKC chk clk a fuel)) = Failed e) :
  expected_failure e \/ library_failure HTML chk clk e.
Proof.
  unfold main in Hfail.
  destruct (crawl _ _ _ _ _ _ _ _ _) as [[st s] w] eqn:E. cbn [fst] in Hfail.
  subst st.
  exact (crawl_failure server HTML NFKC chk clk a fuel _ _ _ _ _
           (session_ok_init (url a)) E).
Qed.

Lemma main_failure_modes_witness :
  expected_failure (HTTPError 429 (lit " Forbidden/Too Many Requests"))
  \/ library_failure TwoPages.HTML TwoPages.bracketed_ok TwoPages.clock
       (HTTPError 429 (lit " Forbidden/Too Many Requests")).
Proof.
  apply (main_failure_modes Sites.always_429 TwoPages.HTML TwoPages.NFKC
           TwoPages.bracketed_ok TwoPages.clock (TwoPages.run 0) 1).
  vm_compute. reflexivity.
Defined.

(** ** The rows of the output file *)

(** X9. Every row of the output file has exactly three fields, whether the
    crawl ends, fails or is still going. *)
Theorem main_rows_three_fields server HTML NFKC chk clk a fuel :
  Forall (fun row => length row = 3%nat)
         (file (snd (main server HTML NFKC chk clk a fuel))).
Proof.
  destruct (main server HTML NFKC chk clk a fuel) as [[st s] w] eqn:E. cbn [snd].
  destruct (main_inv _ _ _ _ _ _ _ _ _ _ E) as (_ & (shops & t & Hf & _) & _).
  rewrite Hf. constructor; [reflexivity|].
  apply Forall_fmap, Forall_forall. intros x _. reflexivity.
Qed.

Lemma join_nonempty sep d ds : d <> [] -> join sep (d :: ds) <> [].
Proof.
  intros Hd. cbn [join]. destruct ds; [done|].
  destruct d; [done | discriminate].
Qed.

Lemma split_join c (l : list str) :
  l <> [] -> Forall (fun d => ~ In c d) l -> split c (join [c] l) = l.
Proof.
  induction l as [|d l IH]; [done|]. intros _ Hall.
  apply Forall_cons in Hall as [Hd Hall].
  assert (Hc : has_char c d = false).
  { destruct (has_char c d) eqn:E; [|done]. by apply has_char_true in E. }
  destruct l as [|d' l]; [by apply split_single|].
  change (join [c] (d :: d' :: l)) with (d ++ [c] ++ join [c] (d' :: l)).
  cbn [app]. rewrite split_app, (split_single _ _ Hc), IH; done.
Qed.

(** X10. The dishes of a Record can be read back from its row: the third
    field is empty exactly when the Record has no dish, and otherwise
    splitting it at the separator ['、'] gives the dishes again, as long as
    no dish contains the separator. *)
Theorem shop_row_dishes_round_trip (s : shop)
  (Hwf : well_formed s)
  (Hsep : Forall (fun d => ~ In 12289 d) (recommended_dishes s)) :
  exists n p field,
    shop_row s = [n; p; field]
    /\ (field = [] <-> recommended_dishes s = [])
    /\ (recommended_dishes s <> [] -> split 12289 field = recommended_dishes s).
Proof.
  unfold shop_row. destruct Hwf as (_ & _ & Hd).
  destruct (recommended_dishes s) as [|d ds] eqn:E.
  - eexists _, _, _. split; [reflexivity|]. split; done.
  - eexists _, _, _. split; [reflexivity|]. split.
    + split; [|done]. intros Hj.
      apply Forall_cons in Hd as [[Hne _] _].
      by apply (join_nonempty DISH_SEP d ds) in Hne.
    + intros _. apply (split_join 12289); [done | exact Hsep].
Qed.

Lemma shop_row_dishes_round_trip_witness :
  split 12289 (lit "Dish1" ++ DISH_SEP ++ lit "Dish2") = [lit "Dish1"; lit "Dish2"].
Proof.
  set (s := {| name := lit "Shop A"; avg_price := 165 :: lit "35";
               recommended_dishes := [lit "Dish1"; lit "Dish2"] |}).
  assert (Hwf : well_formed s).
  { repeat split; try (vm_compute; reflexivity).
    repeat constructor; try discriminate; vm_compute; reflexivity. }
  assert (Hsep : Forall (fun d => ~ In 12289 d) (recommended_dishes s)).
  { repeat constructor; cbn; intros H; repeat destruct H as [H|H]; done. }
  destruct (shop_row_dishes_round_trip s Hwf Hsep) as (n & p & field & Hrow & _ & Hrt).
  injection Hrow as _ _ <-. apply Hrt. discriminate.
Defined.

(** ** The page ceiling and the next turn *)

(** X11. A negative [--max-pages] is a ceiling already reached: the crawl
    processes one page at most, sends three requests at most, and has
    stopped after its first turn. *)
Theorem crawl_negative_max_pages server HTML NFKC chk clk a fuel
  (Hneg : (max_pages a < 0)%Z) :
  let st := fst (fst (main server HTML NFKC chk clk a fuel)) in
  let s := snd (fst (main server HTML NFKC chk clk a fuel)) in
  let w := snd (main server HTML NFKC chk clk a fuel) in
  (0 <= page_index s <= 1)%Z
  /\ (count_gets (trace w) <= 3)%nat
  /\ (fuel <> 0%nat -> st <> Running).
Proof.
  cbv zeta. unfold main.
  destruct fuel as [|fuel]; cbn [crawl current_url].
  - destruct (is_empty (url a)); cbn; repeat split; try lia; done.
  - destruct (is_empty (url a)); [cbn; repeat split; try lia; done|].
    destruct (loop_body _ _ _ _ _ _ _ _) as [[st1 s1] w1] eqn:EB.
    destruct (loop_body_inv _ _ _ _ _ _ _ _ _ _ _ EB)
      as (Hidx & (shops & t & _ & Ht & Hg & _) & Hrun).
    cbn [page_index trace writerow app] in Hidx, Ht.
    assert (Hst : st1 <> Running).
    { intros ->. destruct (Hrun eq_refl) as (_ & _ & _ & [Hc|Hc]); lia. }
    destruct st1; [done| |]; cbn [fst snd]; rewrite Hidx, Ht;
      (split; [lia|]); (split; [|done]);
      unfold count_gets in *; cbn [List.filter is_get]; exact Hg.
Qed.

Lemma crawl_negative_max_pages_witness :
  (max_pages (TwoPages.run (-1)) < 0)%Z
  /\ fst (fst (main TwoPages.server TwoPages.HTML TwoPages.NFKC
                    TwoPages.bracketed_ok TwoPages.clock (TwoPages.run (-1)) 5))
     <> Running.
Proof.
  split; [reflexivity|].
  pose proof (crawl_negative_max_pages TwoPages.server TwoPages.HTML
                TwoPages.NFKC TwoPages.bracketed_ok TwoPages.clock (TwoPages.run (-1)) 5
                eq_refl) as H.
  cbv zeta in H. destruct H as (_ & _ & Hstop). apply Hstop. discriminate.
Defined.

(** X13. A next link whose [href] is empty resolves to the current URL, so
    the turn that meets it ends the crawl. *)
Theorem empty_href_ends_crawl server HTML NFKC chk clk a s w referer html_text w1
  doc rest
  (Hcur : current_url s <> [])
  (Href : turn_referer s = Some referer)
  (Hload : load_html server (current_url s) (Some (cookies a)) (timeout a)
                     (Some referer) w = (Ok html_text, w1))
  (Hdoc : HTML html_text = Ok (Some doc))
  (Hlink : xp_next_hrefs doc = [] :: rest) :
  get_next_page_url NFKC chk doc (current_url s) = Ok (Some (current_url s))
  /\ fst (fst (loop_body server HTML NFKC chk clk a s w)) = Terminated.
Proof.
  assert (Hnext : get_next_page_url NFKC chk doc (current_url s)
                  = Ok (Some (current_url s))).
  { rewrite (get_next_page_url_first NFKC chk doc (current_url s) [] rest Hlink).
    unfold Url.urljoin. apply is_empty_false in Hcur. by rewrite Hcur. }
  split; [exact Hnext|].
  by apply (loop_body_self_link _ _ _ _ _ _ _ _ _ _ _ _ Href Hload Hdoc Hnext).
Qed.

Lemma empty_href_ends_crawl_witness :
  fst (fst (loop_body EmptyLink.server EmptyLink.HTML TwoPages.NFKC
                      TwoPages.bracketed_ok TwoPages.clock (TwoPages.run 0) EmptyLink.seed
                      after_header))
  = Terminated.
Proof.
  assert (Hload : load_html EmptyLink.server (current_url EmptyLink.seed)
                    (Some (cookies (TwoPages.run 0))) (timeout (TwoPages.run 0))
                    (Some DEFAULT_REFERER) after_header
                  = (Ok (lit "L"),
                     advance after_header 1
                       [EvGet (fetch_request Sites.seed_url (Some (lit "k=v")) 60
                                             (Some DEFAULT_REFERER))]))
    by (vm_compute; reflexivity).
  assert (Hlink : xp_next_hrefs (link_page []) = [[]])
    by (vm_compute; reflexivity).
  apply (empty_href_ends_crawl EmptyLink.server EmptyLink.HTML TwoPages.NFKC
           TwoPages.bracketed_ok TwoPages.clock (TwoPages.run 0) EmptyLink.seed after_header
           DEFAULT_REFERER (lit "L") _ (link_page []) []
           ltac:(discriminate) eq_refl Hload eq_refl Hlink).
Defined.

(** ** Root-relative links *)

Lemma remove_char_id c s : ~ In c s -> remove_char c s = s.
Proof.
  unfold remove_char. induction s as [|x s IH]; [done|]. intros Hc.
  cbn [List.filter]. destruct (x =? c) eqn:E.
  - apply N.eqb_eq in E. subst. exfalso. apply Hc. by left.
  - cbn [negb]. f_equal. apply IH. intros H. apply Hc. by right.
Qed.

Lemma find_char_None c s : ~ In c s -> find_char c s = None.
Proof.
  induction s as [|x s IH]; [done|]. intros Hc. cbn [find_char].
  destruct (x =? c) eqn:E.
  - apply N.eqb_eq in E. subst. exfalso. apply Hc. by left.
  - rewrite IH; [done|]. intros H. apply Hc. by right.
Qed.

Lemma has_char_false c s : ~ In c s -> has_char c s = false.
Proof.
  intros Hc. destruct (has_char c s) eqn:E; [|done]. by apply has_char_true in E.
Qed.

(** Splitting at a character and joining with it gives the text back. *)
Lemma join_split c s : join [c] (split c s) = s.
Proof.
  induction s as [|x s IH]; [done|]. cbn [split].
  rewrite (split_shape c s) in *. destruct (x =? c) eqn:E.
  - apply N.eqb_eq in E. subst x.
    change (join [c] ([] :: ?l)) with ([] ++ [c] ++ join [c] l).
    cbn [join app]. f_equal. exact IH.
  - destruct (if has_char c s then split c (after_first c s) else []);
      cbn [join app] in *; f_equal; exact IH.
Qed.

Lemma resolve_segments_plain segs : forall acc,
  forallb plain_segment segs = true ->
  Url.resolve_segments segs acc = acc ++ segs.
Proof.
  induction segs as [|seg segs IH]; intros acc H; cbn [Url.resolve_segments].
  - by rewrite app_nil_r.
  - cbn [forallb] in H. apply andb_true_iff in H as [Hseg H].
    unfold plain_segment in Hseg. apply andb_true_iff in Hseg as [H1 H2].
    apply negb_true_iff in H1, H2. rewrite H2, H1, IH by done.
    by rewrite <- app_assoc.
Qed.

Lemma path_char_in s x :
  forallb path_char s = true -> In x s ->
  32 < x /\ x <> Url.COLON /\ x <> Url.QMARK /\ x <> Url.HASH /\ x <> Url.SEMI.
Proof.
  intros H Hx. rewrite forallb_forall in H. specialize (H x Hx).
  unfold path_char in H.
  repeat (apply andb_true_iff in H as [H ?]).
  repeat match goal with
  | H : negb _ = true |- _ => apply negb_true_iff in H
  end.
  repeat split; try (by apply N.eqb_neq). by apply N.leb_gt.
Qed.

Section RootRelative.
Variable NFKC : str -> str.
Variable chk : str -> result unit.

(** A root-relative link parses to a bare path, with the default scheme. *)
Lemma urlparse_root_relative (href d : str) :
  take 1 href = [Url.SLASH] -> take 2 href <> [Url.SLASH; Url.SLASH] ->
  forallb path_char href = true ->
  d = lit "http" \/ d = lit "https" ->
  Url.urlparse NFKC chk href d
  = Ok {| Url.scheme := d; Url.netloc := []; Url.path := href;
          Url.params := []; Url.query := []; Url.fragment := [] |}.
Proof.
  intros Hslash Hnot2 Hchars Hd.
  assert (Hin : forall x, In x href -> 32 < x /\ x <> Url.COLON /\ x <> Url.QMARK
                                       /\ x <> Url.HASH /\ x <> Url.SEMI)
    by (intros x; apply path_char_in, Hchars).
  assert (Hnotin : forall c, (c <= 32 \/ c = Url.COLON \/ c = Url.QMARK
                              \/ c = Url.HASH \/ c = Url.SEMI) -> ~ In c href).
  { intros c Hc Hx. destruct (Hin c Hx) as (H1 & H2 & H3 & H4 & H5).
    destruct Hc as [Hc|[Hc|[Hc|[Hc|Hc]]]]; [lia|done..]. }
  assert (Hl : lstrip_by Url.is_c0_or_space href = href).
  { apply lstrip_by_id. destruct href as [|c0 h]; [done|]. cbn.
    destruct (Hin c0 ltac:(by left)) as [H0 _].
    unfold Url.is_c0_or_space. by apply N.leb_gt. }
  assert (Hu : Url.remove_unsafe href = href).
  { unfold Url.remove_unsafe.
    rewrite (remove_char_id 9 href) by (apply Hnotin; left; lia).
    rewrite (remove_char_id 13 href) by (apply Hnotin; left; lia).
    apply remove_char_id, Hnotin. left. lia. }
  assert (Hdclean : Url.remove_unsafe
                      (rstrip_by Url.is_c0_or_space
                         (lstrip_by Url.is_c0_or_space d)) = d).
  { destruct Hd as [->| ->]; vm_compute; reflexivity. }
  assert (Hparams : in_list d Url.uses_params && has_char Url.SEMI href = false).
  { rewrite (has_char_false Url.SEMI href); [apply andb_false_r|].
    apply Hnotin. tauto. }
  unfold Url.urlparse, Url.urlsplit.
  rewrite Hl, Hu, Hdclean.
  rewrite (find_char_None Url.COLON href) by (apply Hnotin; tauto).
  apply eqb_false in Hnot2. rewrite Hnot2.
  cbn [mbind result_bind].
  rewrite (has_char_false Url.HASH href) by (apply Hnotin; tauto).
  rewrite (has_char_false Url.QMARK href) by (apply Hnotin; tauto).
  cbn [Url._checknetloc is_empty orb mbind result_bind Url.sr_scheme Url.sr_path
       Url.sr_netloc Url.sr_query Url.sr_fragment].
  rewrite Hparams. reflexivity.
Qed.
End RootRelative.

(** X14. A root-relative next link (one that starts with a single ['/'],
    made of plain path characters, without [.] or [..] segments) resolves,
    from an http(s) page, to that page's scheme and host followed by the
    link. *)
Theorem get_next_page_url_root_relative NFKC chk document base href rest b
  (Hlink : xp_next_hrefs document = href :: rest)
  (Hbase : Url.urlparse NFKC chk base [] = Ok b)
  (Hscheme : Url.scheme b = lit "http" \/ Url.scheme b = lit "https")
  (Hhost : Url.netloc b <> [])
  (Hslash : take 1 href = [Url.SLASH])
  (Hnot2 : take 2 href <> [Url.SLASH; Url.SLASH])
  (Hchars : forallb path_char href = true)
  (Hplain : forallb plain_segment (split Url.SLASH href) = true) :
  get_next_page_url NFKC chk document base
  = Ok (Some (Url.scheme b ++ [Url.COLON; Url.SLASH; Url.SLASH]
              ++ Url.netloc b ++ href)).
Proof.
  rewrite (get_next_page_url_first NFKC chk document base href rest Hlink).
  unfold Url.urljoin.
  assert (Hb : is_empty base = false).
  { apply is_empty_false. intros ->. cbn in Hbase. injection Hbase as <-. done. }
  assert (Hh : is_empty href = false).
  { apply is_empty_false. intros ->. done. }
  rewrite Hb, Hh, Hbase. cbn [mbind result_bind].
  rewrite (urlparse_root_relative NFKC chk href (Url.scheme b)
             Hslash Hnot2 Hchars Hscheme).
  cbn [mbind result_bind Url.scheme Url.netloc Url.path Url.params Url.query
       Url.fragment].
  assert (Hrel : in_list (Url.scheme b) Url.uses_relative = true)
    by (destruct Hscheme as [->| ->]; vm_compute; reflexivity).
  assert (Hnl : in_list (Url.scheme b) Url.uses_netloc = true)
    by (by apply uses_relative_netloc).
  assert (Hsne : is_empty (Url.scheme b) = false)
    by (destruct Hscheme as [->| ->]; reflexivity).
  rewrite eqb_refl, Hrel, Hnl, Hh. cbn [negb orb andb is_empty].
  destruct (getlast_ok (split Url.SLASH (Url.path b)) (split_nonempty _ _))
    as [final ->].
  cbn [mbind result_bind]. apply eqb_true in Hslash. rewrite Hslash.
  rewrite (resolve_segments_plain _ [] Hplain). cbn [app].
  destruct (getlast_ok (split Url.SLASH href) (split_nonempty _ _))
    as [fs Hfs].
  rewrite Hfs. cbn [mbind result_bind].
  assert (Hfsplain : in_list fs [lit "."; lit ".."] = false).
  { unfold Url.getlast in Hfs. destruct (last (split Url.SLASH href)) as [x|] eqn:E;
      [|done]. injection Hfs as ->.
    apply last_Some in E as [l' E]. rewrite E, forallb_app in Hplain.
    apply andb_true_iff in Hplain as [_ Hp]. cbn [forallb] in Hp.
    rewrite andb_true_r in Hp. unfold plain_segment in Hp.
    apply andb_true_iff in Hp as [H1 H2]. apply negb_true_iff in H1, H2.
    unfold in_list. cbn [existsb]. by rewrite H1, H2. }
  rewrite Hfsplain, join_split, Hh.
  unfold Url.urlunparse, Url.urlunsplit.
  cbn [Url.scheme Url.netloc Url.path Url.params Url.query Url.fragment is_empty
       negb Url.sr_scheme Url.sr_netloc Url.sr_path Url.sr_query Url.sr_fragment].
  apply is_empty_false in Hhost. rewrite Hhost, Hsne, Hh, Hslash.
  cbn [negb orb andb fmap result_fmap]. reflexivity.
Qed.

Lemma get_next_page_url_root_relative_witness :
  get_next_page_url TwoPages.NFKC TwoPages.bracketed_ok Samples.page1
                    Sites.seed_url
  = Ok (Some (lit "https://www.dianping.com/page2")).
Proof.
  set (b := {| Url.scheme := lit "https"; Url.netloc := lit "www.dianping.com";
               Url.path := lit "/shanghai/ch10/r854x81"; Url.params := [];
               Url.query := []; Url.fragment := [] |}).
  assert (Hlink : xp_next_hrefs Samples.page1 = [lit "/page2"])
    by (vm_compute; reflexivity).
  assert (Hbase : Url.urlparse TwoPages.NFKC TwoPages.bracketed_ok
                    Sites.seed_url [] = Ok b)
    by (vm_compute; reflexivity).
  assert (Hplain : forallb plain_segment (split Url.SLASH (lit "/page2")) = true)
    by (vm_compute; reflexivity).
  assert (Hchars : forallb path_char (lit "/page2") = true)
    by (vm_compute; reflexivity).
  exact (get_next_page_url_root_relative TwoPages.NFKC TwoPages.bracketed_ok
           Samples.page1 Sites.seed_url (lit "/page2") [] b Hlink Hbase
           (or_intror eq_refl) ltac:(discriminate) eq_refl ltac:(discriminate)
           Hchars Hplain).
Defined.

(** ** The first usable answer *)

(** X15. The first usable answer (HTTP 200 without the challenge marker)
    ends the fetch at once: its body is returned, nothing is sent or slept
    after it, and what came before it is one request per unusable answer
    with the sleeps of 1.5 s and 2.5 s in between. *)
Theorem load_html_first_usable server url cookies timeout referer w status text
  (Hurl : valid_url url = true)
  (Hgood : failed (HttpResp status text) = false) :
  let rq := fetch_request url cookies timeout referer in
  let r0 := server (nreq w) rq in
  let r1 := server (S (nreq w)) rq in
  let r2 := server (S (S (nreq w))) rq in
  let out := load_html server url cookies timeout referer w in
  (r0 = HttpResp status text ->
   out = (Ok text, advance w 1 [EvGet rq]))
  /\ (failed r0 = true -> r1 = HttpResp status text ->
      out = (Ok text, advance w 2 [EvGet rq; EvSleep (3 # 2); EvGet rq]))
  /\ (failed r0 = true -> failed r1 = true -> r2 = HttpResp status text ->
      out = (Ok text, advance w 3 (retry_schedule rq))).
Proof.
  cbv zeta. rewrite load_html_unfold, Hurl. unfold attempts_outcome.
  set (rq := fetch_request url cookies timeout referer).
  repeat split.
  - intros ->. by rewrite Hgood.
  - intros Hf0 Hr1. destruct (server (nreq w) rq) as [s0 b0|d0]; [|done].
    by rewrite Hf0, Hr1, Hgood.
  - intros Hf0 Hf1 Hr2. destruct (server (nreq w) rq) as [s0 b0|d0]; [|done].
    rewrite Hf0. cbn [negb].
    destruct (server (S (nreq w)) rq) as [s1 b1|d1]; [|done].
    by rewrite Hf1, Hr2, Hgood.
Qed.

Lemma load_html_first_usable_witness :
  load_html Sites.twice_429 Sites.seed_url None 60 None Sites.start
  = (Ok (lit "<html>ok</html>"),
     advance Sites.start 3
       (retry_schedule (fetch_request Sites.seed_url None 60 None))).
Proof.
  pose proof (load_html_first_usable Sites.twice_429 Sites.seed_url None 60%Z
                None Sites.start 200%Z (lit "<html>ok</html>") eq_refl eq_refl)
    as H.
  cbv zeta in H. destruct H as (_ & _ & H). apply H; reflexivity.
Defined.

(** ** The next-page label *)

Lemma ws_split_nonempty s : ws_split s <> [].
Proof.
  destruct s as [|c s]; [done|]. cbn [ws_split].
  destruct (is_xml_space c); [done|]. by destruct (ws_split s).
Qed.

Lemma ws_split_spaces s :
  forallb is_xml_space s = true ->
  List.filter (fun w => negb (is_empty w)) (ws_split s) = []
  /\ exists tl, ws_split s = [] :: tl.
Proof.
  induction s as [|c s IH]; cbn [forallb ws_split]; [by eauto|].
  intros H. apply andb_true_iff in H as [-> H]. destruct (IH H) as [Hf _].
  split; [exact Hf | by eexists].
Qed.

Lemma normalize_space_leading pre s :
  forallb is_xml_space pre = true ->
  normalize_space (pre ++ s) = normalize_space s.
Proof.
  unfold normalize_space. induction pre as [|c pre IH]; [done|].
  cbn [forallb app ws_split]. intros H. apply andb_true_iff in H as [-> H].
  cbn [List.filter is_empty negb]. by apply IH.
Qed.

Lemma child_texts_after_elements tg a (elems : list node) t rest :
  forallb is_element elems = true ->
  hd [] (child_texts (Elem tg a (elems ++ Text t :: rest))) = t.
Proof.
  unfold child_texts. cbn [children_of].
  induction elems as [|c elems IH]; [done|].
  cbn [forallb app flat_map]. intros H. apply andb_true_iff in H as [Hc H].
  destruct c as [t0|tg0 a0 cs0]; [discriminate Hc|]. cbn [app]. by apply IH.
Qed.

(** X16. An anchor whose first text node is the label ['下一页'] with XML
    white space around it is taken for the next link, whatever its class,
    whatever elements come before that text inside the anchor and whatever
    follows it. *)
Theorem next_label_surrounding_space (attrs : list (str * str)) (pre post : str)
  (elems rest : list node)
  (Helems : forallb is_element elems = true)
  (Hpre : forallb is_xml_space pre = true)
  (Hpost : forallb is_xml_space post = true) :
  is_next_anchor (Elem (lit "a") attrs
                       (elems ++ Text (pre ++ NEXT_LABEL ++ post) :: rest))
  = true.
Proof.
  unfold is_next_anchor.
  change (node_is (has_tag (lit "a")) (Elem (lit "a") attrs _)) with true.
  cbn [andb]. rewrite (child_texts_after_elements _ _ _ _ _ Helems).
  rewrite (normalize_space_leading pre _ Hpre).
  destruct (ws_split_spaces post Hpost) as [Hf [tl Htl]].
  unfold normalize_space, NEXT_LABEL. cbn [app ws_split].
  change (is_xml_space 19979) with false. change (is_xml_space 19968) with false.
  change (is_xml_space 39029) with false. cbv iota.
  rewrite Htl in *. cbn [List.filter is_empty negb] in *. rewrite Hf.
  cbn [join]. rewrite eqb_refl. apply orb_true_r.
Qed.

Lemma next_label_surrounding_space_witness :
  is_next_anchor (Elem (lit "a") [(lit "href", lit "/page2")]
                       ([Elem (lit "i") [] []]
                        ++ Text ([10; 32] ++ NEXT_LABEL ++ [32; 9])
                        :: [Elem (lit "b") [] [Text (lit "x")]; Text (lit "y")]))
  = true.
Proof.
  exact (next_label_surrounding_space [(lit "href", lit "/page2")] [10; 32] [32; 9]
           [Elem (lit "i") [] []]
           [Elem (lit "b") [] [Text (lit "x")]; Text (lit "y")]
           eq_refl eq_refl eq_refl).
Defined.
